(** * disgord/internal/httd: the REST client

    A shallow embedding of [internal/httd/client.go] (package [httd]) and
    the properties of its dispatch pipeline: construction ([NewClient]),
    header assembly ([copyHeader]), body decoding ([decodeResponseBody]) and
    dispatch with success / error classification ([Client.Do]).

    Conventions.
    - Go's [int] is modelled as [Z]; [[]byte] as [list byte]; [string] as
      [string]; a nilable pointer, slice or interface value as [option].
    - [http.Header] is a Go map and therefore a reference: header maps that
      the client owns live in a heap of maps and are named by their address.
    - Calls through the injected interfaces ([HttpClientDoer],
      [RESTBucketManager], [RESTBucket]) are recorded in a trace, as a mock
      in a Go test would record them. *)

From Stdlib Require Import ZArith List Lia Bool.
From Stdlib.Strings Require Import String Ascii Byte.
From Stdlib Require Import DecimalString.
From stdpp Require Import base option list strings gmap fin_maps.

Local Open Scope string_scope.
Local Open Scope list_scope.
Local Open Scope Z_scope.

(** ** Constants of the package (client.go, lines 19-35) *)

Definition BaseURL : string := "https://discord.com/api".
Definition AuthorizationFormat (token : string) : string := token.
Definition UserAgentFormat (source version extra : string) : string :=
  "DiscordBot (" +:+ source +:+ ", " +:+ version +:+ ") " +:+ extra.
Definition ContentEncoding : string := "Content-Encoding".
Definition ContentType : string := "Content-Type".
Definition ContentTypeJSON : string := "application/json".
Definition GZIPCompression : string := "gzip".

(** [http.StatusNotModified] *)
Definition StatusNotModified : Z := 304.

(** ** Go library functions used by the client *)

(** [strconv.Itoa] / [strconv.FormatInt _ 10]: decimal rendering, with a
    leading minus sign for negative numbers. *)
Definition Itoa (n : Z) : string := NilZero.string_of_int (Z.to_int n).

(** [strings.Contains s sub] *)
Fixpoint Contains (s sub : string) : bool :=
  String.prefix sub s ||
  match s with
  | EmptyString => false
  | String _ s' => Contains s' sub
  end.

(** [string(b)] for a byte slice [b], and [[]byte(s)]. *)
Definition string_of_bytes (b : list byte) : string := string_of_list_byte b.
Definition bytes_of_string (s : string) : list byte := list_byte_of_string s.

(** [net/textproto]: the bytes allowed in a header field name (RFC 7230
    token characters). *)
Definition validHeaderFieldByte (c : ascii) : bool :=
  let n := nat_of_ascii c in
  ((48 <=? n) && (n <=? 57) || (65 <=? n) && (n <=? 90) || (97 <=? n) && (n <=? 122))%nat
  || bool_decide (c ∈ ["!"; "#"; "$"; "%"; "&"; "'"; "*"; "+"; "-"; "."; "^"; "_"; "`"; "|"; "~"]%char).

Definition isLower (c : ascii) : bool :=
  let n := nat_of_ascii c in ((97 <=? n) && (n <=? 122))%nat.
Definition isUpper (c : ascii) : bool :=
  let n := nat_of_ascii c in ((65 <=? n) && (n <=? 90))%nat.
Definition toUpper (c : ascii) : ascii :=
  if isLower c then ascii_of_nat (nat_of_ascii c - 32) else c.
Definition toLower (c : ascii) : ascii :=
  if isUpper c then ascii_of_nat (nat_of_ascii c + 32) else c.

Fixpoint allValidHeaderFieldBytes (s : string) : bool :=
  match s with
  | EmptyString => true
  | String c s' => validHeaderFieldByte c && allValidHeaderFieldBytes s'
  end.

(** The canonicalising loop: upper case at the start and after each dash,
    lower case elsewhere. *)
Fixpoint canonicalCase (upper : bool) (s : string) : string :=
  match s with
  | EmptyString => EmptyString
  | String c s' =>
      let c' := if upper then toUpper c else toLower c in
      String c' (canonicalCase (Ascii.eqb c' "-") s')
  end.

(** [textproto.CanonicalMIMEHeaderKey]: a key holding a byte that is not a
    token character is returned unchanged. *)
Definition CanonicalMIMEHeaderKey (s : string) : string :=
  if allValidHeaderFieldBytes s then canonicalCase true s else s.

(** ** [http.Header] (a [map[string][]string]) and its methods *)

Abbreviation http_Header := (gmap string (list string)).

Definition Header_Add (h : http_Header) (key value : string) : http_Header :=
  let k := CanonicalMIMEHeaderKey key in
  <[k := default [] (h !! k) ++ [value]]> h.

Definition Header_Set (h : http_Header) (key value : string) : http_Header :=
  <[CanonicalMIMEHeaderKey key := [value]]> h.

Definition Header_Del (h : http_Header) (key : string) : http_Header :=
  delete (CanonicalMIMEHeaderKey key) h.

Definition Header_Get (h : http_Header) (key : string) : string :=
  match h !! CanonicalMIMEHeaderKey key with
  | Some (v :: _) => v
  | _ => ""
  end.

(** A header is present when its canonical key is bound in the map. *)
Definition Header_has (h : http_Header) (key : string) : Prop :=
  is_Some (h !! CanonicalMIMEHeaderKey key).

(** ** [SupportsDiscordAPIVersion] (client.go, lines 102-116) *)

(** The [for ... range supports] loop with its [break]. *)
Fixpoint supportsLoop (supports : list Z) (version : Z) (supported : bool) : bool :=
  match supports with
  | [] => supported
  | supportedVersion :: rest =>
      if supportedVersion =? version then true
      else supportsLoop rest version supported
  end.

Definition SupportsDiscordAPIVersion (version : Z) : bool :=
  let supports := [8] in
  supportsLoop supports version false.

(** ** Errors (client.go, lines 69-82) *)

(** [ErrREST]: only [Code] and [Msg] carry a JSON name; the other four
    fields are tagged [json:"-"] and are invisible to the codec. *)
Record ErrREST := {
  Code : Z;
  Msg : string;
  Suggestion : string;
  HTTPCode : Z;
  ErrREST_Bucket : list string;
  HashedEndpoint : string
}.

(** Values of Go's [error] interface: what [errors.New] builds, and
    [*ErrREST]. *)
Inductive error :=
  | errors_New (text : string)
  | ErrREST_ptr (e : ErrREST).

(** ** Readers and HTTP messages *)

(** An [io.Reader], by what reading it to the end gives: the bytes, and the
    error (if any) that ends the stream in place of [io.EOF]. *)
Record Reader := {
  rd_data : list byte;
  rd_err : option error
}.

Definition bytes_Reader (b : list byte) : Reader :=
  {| rd_data := b; rd_err := None |}.

(** [ioutil.ReadAll] *)
Definition ioutil_ReadAll (r : Reader) : list byte + error :=
  match rd_err r with
  | None => inl (rd_data r)
  | Some err => inr err
  end.

(** [*http.Response], with the fields the client reads. *)
Record Response := {
  StatusCode : Z;
  Resp_Header : http_Header;
  Resp_Body : Reader
}.

(** The three results of [Do] and of a bucket transaction:
    [(resp *http.Response, body []byte, err error)]. *)
Definition Result : Type := option Response * option (list byte) * option error.

(** Addresses of header maps in the heap. *)
Definition loc := nat.

(** What the transport reads of an [*http.Request] when it is sent. *)
Record SentRequest := {
  sent_Method : string;
  sent_URL : string;
  sent_Header : http_Header;
  sent_Body : option Reader
}.

(** Calls through the injected interfaces, in the order they happen. *)
Inductive Event :=
  | EvBucket (localHash : string)
  | EvTransactionBegin
  | EvTransport (req : SentRequest)
  | EvTransactionEnd.

(** ** The outside of the client

    [E] is the state of everything the client talks to (network, clock,
    rate-limit bookkeeping); [Ctx] is [context.Context]; [Value] is a
    request body that is not an [io.Reader]; [gzipReader] is
    [*gzip.Reader]; [httpMethod] is the type of [Request.Method]. *)
Class Outside := {
  E : Type;
  Ctx : Type;
  Value : Type;
  gzipReader : Type;
  httpMethod : Type
}.

Section Types.
Context `{Outside}.

(** [Request.Body] is an [interface{}]: [nil], an [io.Reader], or anything
    else. *)
Inductive BodyValue :=
  | BodyReader (b : Reader)
  | BodyOther (v : Value).

(** [Request] (declared in request.go), with the fields [Do] uses. *)
Record Request := {
  Method : httpMethod;
  Endpoint : string;
  Body : option BodyValue;
  Request_ContentType : string;
  Reason : string;
  bodyReader : option Reader;
  hashedEndpoint : string
}.

(** [*http.Request]: the header is a map, held by address. *)
Record http_Request := {
  Req_ctx : Ctx;
  Req_Method : string;
  Req_URL : string;
  Req_Body : option Reader;
  Req_Header : loc
}.

(** [HttpClientDoer] (lines 84-86): perform the request, return a response
    or an error. *)
Record HttpClientDoer := {
  doer_Do : SentRequest → E → (Response + error) * E
}.

(** [RESTBucket] (lines 45-51). Its only implementation is outside
    client.go; the interface is given by the two phases around the
    callback: waiting for the turn and the rate-limit window, which may fail
    instead (cancellation), and the bookkeeping on the callback's result. *)
Record RESTBucket := {
  tx_wait : Ctx → E → option error * E;
  tx_settle : Result → E → E
}.

(** [RESTBucketManager] (lines 54-67). *)
Record RESTBucketManager := {
  mgr_bucket : string → E → RESTBucket * E;
  mgr_BucketGrouping : E → gmap string (list string)
}.

(** [Client] (lines 89-95). [NewClient] is the only constructor and never
    leaves [httpClient] or [buckets] nil. *)
Record Client := {
  url : string;
  reqHeader : loc;
  httpClient : HttpClientDoer;
  cancelRequestWhenRateLimited : bool;
  buckets : RESTBucketManager
}.

(** [Config] (lines 172-187). *)
Record Config := {
  APIVersion : Z;
  BotToken : string;
  HttpClient : option HttpClientDoer;
  CancelRequestWhenRateLimited : bool;
  Config_RESTBucketManager : option RESTBucketManager;
  UserAgentVersion : string;
  UserAgentSourceURL : string;
  UserAgentExtra : string
}.

Definition Config_with_manager (conf : Config) (m : RESTBucketManager) : Config :=
  {| APIVersion := APIVersion conf;
     BotToken := BotToken conf;
     HttpClient := HttpClient conf;
     CancelRequestWhenRateLimited := CancelRequestWhenRateLimited conf;
     Config_RESTBucketManager := Some m;
     UserAgentVersion := UserAgentVersion conf;
     UserAgentSourceURL := UserAgentSourceURL conf;
     UserAgentExtra := UserAgentExtra conf |}.

(** ** State: the heap of header maps, the trace, the outside

    The heap holds the header maps the client makes for its requests: the
    template of [NewClient], the map of each [http.Request] and each copy of
    the template. The transport reads what it is sent and answers with a
    response that carries its own header. *)

Record World := {
  heap : list http_Header;
  trace : list Event;
  env : E
}.

Definition M (A : Type) : Type := World → A * World.

#[export] Instance M_ret : MRet M := λ A a w, (a, w).
#[export] Instance M_bind : MBind M := λ A B f m w, let '(a, w') := m w in f a w'.

(** [make(http.Header)] and map literals: a new map at a new address. *)
Definition alloc (h : http_Header) : M loc :=
  λ w, (length (heap w),
        {| heap := heap w ++ [h]; trace := trace w; env := env w |}).

Definition load (l : loc) : M http_Header :=
  λ w, (default ∅ (heap w !! l), w).

Definition store (l : loc) (h : http_Header) : M unit :=
  λ w, (tt, {| heap := <[l := h]> (heap w); trace := trace w; env := env w |}).

Definition update (l : loc) (f : http_Header → http_Header) : M unit :=
  h ← load l; store l (f h).

Definition record (ev : Event) : M unit :=
  λ w, (tt, {| heap := heap w; trace := trace w ++ [ev]; env := env w |}).

Definition outside {A} (f : E → A * E) : M A :=
  λ w, let '(a, e) := f (env w) in
       (a, {| heap := heap w; trace := trace w; env := e |}).

End Types.

(** What [Do] and [NewClient] use that is declared outside client.go: other
    files of the package ([XAuditLogReason], [XDisgordNow],
    [Request.PopulateMissing], [httpMethod.String],
    [NormalizeDiscordHeader], [NewManager], and [json.Marshal] on a request
    body) and Go libraries (the checks of [http.NewRequestWithContext],
    [time.Now], [compress/gzip]). [NewManager] stands for the manager that
    [NewManager(nil)] returns. *)
Class Externals `{Outside} := {
  XAuditLogReason : string;
  XDisgordNow : string;
  Method_String : httpMethod → string;
  PopulateMissing : Request → Request;
  json_Marshal : Value → list byte + error;
  NewRequest_check : Ctx → string → string → option error;
  time_Now_UnixNano : E → Z;
  gzip_NewReader : list byte → gzipReader + error;
  gzip_ReadFrom : gzipReader → list byte + error;
  NormalizeDiscordHeader :
    Z → http_Header → option (list byte) → http_Header * option error;
  NewManager : RESTBucketManager
}.

(** ** The structured-data codec on [ErrREST] *)

(** A scalar JSON value. *)
Inductive JSON :=
  | JNull
  | JBool (b : bool)
  | JInt (z : Z)
  | JString (s : string).

Definition isSpace (c : ascii) : bool :=
  bool_decide (c ∈ [" "; "009"; "010"; "013"]%char).

Definition isDigit (c : ascii) : bool :=
  let n := nat_of_ascii c in ((48 <=? n) && (n <=? 57))%nat.

Fixpoint skipSpace (s : string) : string :=
  match s with
  | String c s' => if isSpace c then skipSpace s' else s
  | EmptyString => s
  end.

(** The text of a string literal after its opening quote, up to the closing
    quote, with the two-character escapes resolved. *)
Fixpoint scanString (s : string) : option (string * string) :=
  match s with
  | EmptyString => None
  | String c s' =>
      if Ascii.eqb c (ascii_of_nat 34) then Some (EmptyString, s')
      else if Ascii.eqb c (ascii_of_nat 92) then
        match s' with
        | String e s'' =>
            let plain :=
              if Ascii.eqb e "n" then Some "010"%char
              else if Ascii.eqb e "t" then Some "009"%char
              else if Ascii.eqb e "r" then Some "013"%char
              else if Ascii.eqb e "b" then Some "008"%char
              else if Ascii.eqb e "f" then Some "012"%char
              else if Ascii.eqb e "/" then Some "/"%char
              else if Ascii.eqb e (ascii_of_nat 92) then Some e
              else if Ascii.eqb e (ascii_of_nat 34) then Some e
              else None in
            match plain, scanString s'' with
            | Some x, Some (text, rest) => Some (String x text, rest)
            | _, _ => None
            end
        | EmptyString => None
        end
      else if (nat_of_ascii c <? 32)%nat then None
      else
        match scanString s' with
        | Some (text, rest) => Some (String c text, rest)
        | None => None
        end
  end.

Fixpoint scanDigits (acc : Z) (s : string) : Z * string :=
  match s with
  | String c s' =>
      if isDigit c then scanDigits (10 * acc + (Z.of_nat (nat_of_ascii c) - 48)) s'
      else (acc, s)
  | EmptyString => (acc, s)
  end.

(** An integer literal; a fraction or an exponent is refused. *)
Definition scanInt (s : string) : option (Z * string) :=
  let '(neg, s1) :=
    match s with
    | String "-" s' => (true, s')
    | _ => (false, s)
    end in
  match s1 with
  | String c _ =>
      if isDigit c then
        let '(n, rest) := scanDigits 0 s1 in
        match rest with
        | String "." _ | String "e" _ | String "E" _ => None
        | _ => Some (if neg then - n else n, rest)
        end
      else None
  | EmptyString => None
  end.

Definition scanValue (s : string) : option (JSON * string) :=
  match s with
  | String c s' =>
      if Ascii.eqb c (ascii_of_nat 34) then
        match scanString s' with
        | Some (text, rest) => Some (JString text, rest)
        | None => None
        end
      else if String.prefix "null" s then Some (JNull, String.substring 4 (String.length s - 4) s)
      else if String.prefix "true" s then Some (JBool true, String.substring 4 (String.length s - 4) s)
      else if String.prefix "false" s then Some (JBool false, String.substring 5 (String.length s - 5) s)
      else
        match scanInt s with
        | Some (z, rest) => Some (JInt z, rest)
        | None => None
        end
  | EmptyString => None
  end.

(** The members of an object after its opening brace; [fuel] bounds the
    number of members. *)
Fixpoint scanMembers (fuel : nat) (s : string) : option (list (string * JSON) * string) :=
  match fuel with
  | O => None
  | S fuel' =>
      match skipSpace s with
      | String q s1 =>
          if Ascii.eqb q (ascii_of_nat 34) then
            match scanString s1 with
            | Some (key, s2) =>
                match skipSpace s2 with
                | String ":" s3 =>
                    match scanValue (skipSpace s3) with
                    | Some (v, s4) =>
                        match skipSpace s4 with
                        | String "," s5 =>
                            match scanMembers fuel' s5 with
                            | Some (ms, rest) => Some ((key, v) :: ms, rest)
                            | None => None
                            end
                        | String "}" rest => Some ([(key, v)], rest)
                        | _ => None
                        end
                    | None => None
                    end
                | _ => None
                end
            | None => None
            end
          else None
      | EmptyString => None
      end
  end.

(** A whole document: one object of scalar members, nothing after it. *)
Definition scanObject (s : string) : option (list (string * JSON)) :=
  match skipSpace s with
  | String "{" s1 =>
      match skipSpace s1 with
      | String "}" rest =>
          match skipSpace rest with EmptyString => Some [] | _ => None end
      | _ =>
          match scanMembers (String.length s) s1 with
          | Some (ms, rest) =>
              match skipSpace rest with EmptyString => Some ms | _ => None end
          | None => None
          end
      end
  | _ => None
  end.

(** The decoded value for the target shape [ErrREST]: the fields with a JSON
    name, each present or absent. *)
Record ErrFields := {
  field_code : option Z;
  field_message : option string
}.

Definition fitsInt (z : Z) : bool := (- 2 ^ 63 <=? z) && (z <? 2 ^ 63).

Fixpoint readFields (ms : list (string * JSON)) (acc : ErrFields) : option ErrFields :=
  match ms with
  | [] => Some acc
  | (key, v) :: rest =>
      if String.eqb key "code" then
        match v with
        | JInt z =>
            if fitsInt z
            then readFields rest {| field_code := Some z; field_message := field_message acc |}
            else None
        | JNull => readFields rest acc
        | _ => None
        end
      else if String.eqb key "message" then
        match v with
        | JString m =>
            readFields rest {| field_code := field_code acc; field_message := Some m |}
        | JNull => readFields rest acc
        | _ => None
        end
      else readFields rest acc
  end.

(** Modelled from the spec: the codec's [deserialize(bytes, targetShape) ->
    value|error] ([json.Unmarshal] of the repository's [json] package, which
    is not part of client.go), at the target shape [ErrREST]: the
    server-supplied structured fields (code, message), or an error. The
    model reads one JSON object whose members are scalars. *)
Definition deserialize (data : list byte) : ErrFields + error :=
  match scanObject (string_of_bytes data) with
  | Some ms =>
      match readFields ms {| field_code := None; field_message := None |} with
      | Some v => inl v
      | None => inr (errors_New "json: cannot unmarshal value into Go struct field of ErrREST")
      end
  | None => inr (errors_New "json: invalid input")
  end.

(** Modelled from the spec: [json.Unmarshal(body, err)] into an [*ErrREST],
    built on [deserialize]: a decoded value overlays the fields it carries,
    a decode failure leaves the target as it was. *)
Definition json_Unmarshal (data : list byte) (target : ErrREST) : ErrREST * option error :=
  match deserialize data with
  | inl v =>
      ({| Code := default (Code target) (field_code v);
          Msg := default (Msg target) (field_message v);
          Suggestion := Suggestion target;
          HTTPCode := HTTPCode target;
          ErrREST_Bucket := ErrREST_Bucket target;
          HashedEndpoint := HashedEndpoint target |}, None)
  | inr err => (target, Some err)
  end.

(** ** The client *)

(** How a call ends: it returns, or it dereferences a nil pointer. *)
Inductive Outcome (A : Type) :=
  | Returns (a : A)
  | Panics.
Arguments Returns {A} a.
Arguments Panics {A}.

(** What [Do] holds when it reaches line 284, or the error of an earlier
    [return nil, nil, err]. *)
Inductive Progress :=
  | Returned (err : error)
  | Transacted (res : Result).

(** The loops of [copyHeader] on the map itself. *)
Definition copyHeader_map (h : http_Header) : http_Header :=
  map_fold (λ k vs cp, foldl (λ cp v, Header_Add cp k v) cp vs) ∅ h.

Section Program.
Context `{Externals}.

(** [copyHeader] (lines 118-126): a new map, filled from [h]. *)
Definition copyHeader (h : loc) : M loc :=
  src ← load h;
  alloc (copyHeader_map src).

(** The map literal of lines 154-160: the required request header fields. *)
Definition defaultHeader (conf : Config) : http_Header :=
  let authorization := AuthorizationFormat (BotToken conf) in
  let userAgent :=
    UserAgentFormat (UserAgentSourceURL conf) (UserAgentVersion conf) (UserAgentExtra conf) in
  <["Authorization" := [authorization]]>
    (<["User-Agent" := [userAgent]]>
    (<["Accept-Encoding" := ["gzip"]]> ∅)).

(** [NewClient] (lines 129-168). [conf] is a pointer: the configuration as
    the call leaves it is returned with the results. *)
Definition NewClient (conf : Config) : M (option Client * option error * Config) :=
  if negb (SupportsDiscordAPIVersion (APIVersion conf)) then
    mret (None,
          Some (errors_New ("Discord API version " +:+ Itoa (APIVersion conf) +:+ " is not supported")),
          conf)
  else if String.eqb (BotToken conf) "" then
    mret (None, Some (errors_New "no Discord Bot Token was provided"), conf)
  else
    match HttpClient conf with
    | None => mret (None, Some (errors_New "missing http client"), conf)
    | Some doer =>
        let conf :=
          match Config_RESTBucketManager conf with
          | None => Config_with_manager conf NewManager
          | Some _ => conf
          end in
        if String.eqb (UserAgentSourceURL conf) "" || String.eqb (UserAgentVersion conf) "" then
          mret (None,
                Some (errors_New "both a source(url) and a version must be present for sending requests to the Discord REST API"),
                conf)
        else
          header ← alloc (defaultHeader conf);
          mret (Some {| url := BaseURL +:+ "/v" +:+ Itoa (APIVersion conf);
                        reqHeader := header;
                        httpClient := doer;
                        cancelRequestWhenRateLimited := false;
                        buckets := default NewManager (Config_RESTBucketManager conf) |},
                None, conf)
    end.

(** [Client.decodeResponseBody] (lines 197-224). *)
Definition decodeResponseBody (c : Client) (resp : Response) : option (list byte) * option error :=
  match ioutil_ReadAll (Resp_Body resp) with
  | inr err => (None, Some err)
  | inl buffer =>
      if String.eqb (Header_Get (Resp_Header resp) ContentEncoding) GZIPCompression then
        match gzip_NewReader buffer with
        | inr err => (None, Some err)
        | inl r =>
            match gzip_ReadFrom r with
            | inr err => (None, Some err)
            | inl resB => (Some resB, None)
            end
        end
      else (Some buffer, None)
  end.

(** [convertStructToIOReader] (lines 315-323). *)
Definition convertStructToIOReader (marshal : Value → list byte + error) (v : Value)
  : Reader + error :=
  match marshal v with
  | inr err => inr err
  | inl jsonParamsBytes => inl (bytes_Reader jsonParamsBytes)
  end.

Definition Request_with_bodyReader (r : Request) (rd : option Reader) : Request :=
  {| Method := Method r;
     Endpoint := Endpoint r;
     Body := Body r;
     Request_ContentType := Request_ContentType r;
     Reason := Reason r;
     bodyReader := rd;
     hashedEndpoint := hashedEndpoint r |}.

(** The error of line 235. *)
Definition unknownBodyError : error :=
  errors_New "unknown request body types and only be used in conjunction with httd.ContentTypeJSON".

(** [Do], lines 228-242: choose the reader of the request body. *)
Definition attachBody (r : Request) : Request + error :=
  match Body r, bodyReader r with
  | Some (BodyReader b), None => inl (Request_with_bodyReader r (Some b))
  | Some (BodyOther v), None =>
      if negb (String.eqb (Request_ContentType r) ContentTypeJSON) then
        inr unknownBodyError
      else
        match convertStructToIOReader json_Marshal v with
        | inr err => inr err
        | inl rd => inl (Request_with_bodyReader r (Some rd))
        end
  | _, _ => inl r
  end.

(** [http.NewRequestWithContext]: the library's checks of the context, the
    method and the URL, then a request with an empty header map of its
    own. *)
Definition http_NewRequestWithContext
    (ctx : Ctx) (method url : string) (body : option Reader) : M (http_Request + error) :=
  match NewRequest_check ctx method url with
  | Some err => mret (inr err)
  | None =>
      h ← alloc ∅;
      mret (inl {| Req_ctx := ctx; Req_Method := method; Req_URL := url;
                   Req_Body := body; Req_Header := h |})
  end.

(** [Do], lines 250-258: the header of the outgoing request. *)
Definition outgoingHeader (c : Client) (r : Request) (req : http_Request) : M http_Request :=
  header ← copyHeader (reqHeader c);
  _ ← update header (λ h, Header_Set h ContentType (Request_ContentType r));
  _ ← (if negb (String.eqb (Reason r) "")
       then update header (λ h, Header_Add h XAuditLogReason (Reason r))
       else update (Req_Header req) (λ h, Header_Del h XAuditLogReason));
  mret {| Req_ctx := Req_ctx req; Req_Method := Req_Method req; Req_URL := Req_URL req;
          Req_Body := Req_Body req; Req_Header := header |}.

(** The request as the transport reads it. *)
Definition sending (req : http_Request) : M SentRequest :=
  h ← load (Req_Header req);
  mret {| sent_Method := Req_Method req; sent_URL := Req_URL req;
          sent_Header := h; sent_Body := Req_Body req |}.

(** [c.httpClient.Do(req)], recorded. *)
Definition httpClient_Do (c : Client) (req : http_Request) : M (Response + error) :=
  sent ← sending req;
  _ ← record (EvTransport sent);
  outside (doer_Do (httpClient c) sent).

(** [time.Now().UnixNano()] *)
Definition time_Now : M Z :=
  λ w, (time_Now_UnixNano (env w), w).

(** [resp.Body] once it has been read to the end and closed. *)
Definition drained : Reader := bytes_Reader [].

(** [Do], lines 262-282: the callback run inside the transaction. The
    header map of the response is the transport's: the model carries it in
    the response, by value, so the write of line 270 and the assignment of
    line 280 show as the header of the response from there on, and not in
    the heap, which holds the maps of the request side. *)
Definition roundTrip (c : Client) (req : http_Request) : M Result :=
  sent ← httpClient_Do c req;
  match sent with
  | inr err => mret (None, None, Some err)
  | inl resp =>
      now ← time_Now;
      let epochMs := Z.quot now 1000000 in
      let resp := {| StatusCode := StatusCode resp;
                     Resp_Header := Header_Set (Resp_Header resp) XDisgordNow (Itoa epochMs);
                     Resp_Body := Resp_Body resp |} in
      let '(body, err) := decodeResponseBody c resp in
      match err with
      | Some err => mret (None, None, Some err)
      | None =>
          let '(header, err) := NormalizeDiscordHeader (StatusCode resp) (Resp_Header resp) body in
          mret (Some {| StatusCode := StatusCode resp;
                        Resp_Header := header;
                        Resp_Body := drained |}, body, err)
      end
  end.

(** Modelled from the spec: [RESTBucket.Transaction], implemented outside
    client.go. It waits for exclusive access and for the rate-limit window;
    if that fails (cancellation) it returns the error without invoking the
    work; otherwise it invokes the work exactly once, updates the bucket
    from the result and returns the work's result. *)
Definition Transaction (bucket : RESTBucket) (ctx : Ctx) (work : M Result) : M Result :=
  _ ← record EvTransactionBegin;
  cancelled ← outside (tx_wait bucket ctx);
  res ← match cancelled with
        | Some err => mret (None, None, Some err)
        | None =>
            res ← work;
            _ ← outside (λ e, (tt, tx_settle bucket res e));
            mret res
        end;
  _ ← record EvTransactionEnd;
  mret res.

(** Modelled from the spec: [RESTBucketManager.Bucket], implemented outside
    client.go: it finds or creates the bucket of the key and calls the
    callback on it, once. *)
Definition Bucket {A} (m : RESTBucketManager) (localHash : string) (cb : RESTBucket → M A) : M A :=
  _ ← record (EvBucket localHash);
  bucket ← outside (mgr_bucket m localHash);
  cb bucket.

Definition BucketGrouping (c : Client) : M (gmap string (list string)) :=
  λ w, (mgr_BucketGrouping (buckets c) (env w), w).

(** The message of a status outside the success range (lines 293-294). *)
Definition statusMessage (status : Z) : string :=
  "response was not within the successful http code range [200, 300). code: "
  +:+ Itoa status.

(** [Do], lines 227-283: from the request to the end of the transaction. *)
Definition send (c : Client) (ctx : Ctx) (r : Request) : M (Progress * Request) :=
  let r := PopulateMissing r in
  match attachBody r with
  | inr err => mret (Returned err, r)
  | inl r =>
      created ← http_NewRequestWithContext ctx (Method_String (Method r))
                  (url c +:+ Endpoint r) (bodyReader r);
      match created with
      | inr err => mret (Returned err, r)
      | inl req =>
          req ← outgoingHeader c r req;
          res ← Bucket (buckets c) (hashedEndpoint r)
                  (λ bucket, Transaction bucket ctx (roundTrip c req));
          mret (Transacted res, r)
      end
  end.

(** [Do], lines 284-311: the classification of what the transaction
    gave. *)
Definition classify (c : Client) (r : Request) (res : Result) : M (Outcome Result) :=
  let '(resp, body, err) := res in
  match err with
  | Some err => mret (Returns (None, None, Some err))
  | None =>
      match resp with
      | None => mret Panics
      | Some resp =>
          let noDiff := StatusCode resp =? StatusNotModified in
          let withinSuccessScope := (200 <=? StatusCode resp) && (StatusCode resp <? 300) in
          if negb (noDiff || withinSuccessScope) then
            let msg := statusMessage (StatusCode resp) in
            grouping ← BucketGrouping c;
            let err := {| Code := 0;
                          Msg := msg;
                          Suggestion := string_of_bytes (default [] body);
                          HTTPCode := StatusCode resp;
                          ErrREST_Bucket := default [] (grouping !! hashedEndpoint r);
                          HashedEndpoint := hashedEndpoint r |} in
            let err := if (0 <? length (default [] body))%nat
                       then fst (json_Unmarshal (default [] body) err)
                       else err in
            mret (Returns (None, None, Some (ErrREST_ptr err)))
          else mret (Returns (Some resp, body, None))
      end
  end.

(** [Client.Do] (lines 226-312). [r] is a pointer: the request as the call
    leaves it is returned with the results. *)
Definition Do (c : Client) (ctx : Ctx) (r : Request) : M (Outcome Result * Request) :=
  '(progress, r) ← send c ctx r;
  match progress with
  | Returned err => mret (Returns (None, None, Some err), r)
  | Transacted res =>
      out ← classify c r res;
      mret (out, r)
  end.

End Program.

(** ** Predicates and values used in the statements *)

(** A double quote, and the body of the documented 403 answer: the object
    with [code] 50001 and [message] Missing Access. *)
Definition quote : string := String (ascii_of_nat 34) "".

Definition missingAccess : list byte :=
  bytes_of_string
    (String.concat quote ["{"; "code"; ":50001,"; "message"; ":"; "Missing Access"; "}"]).

(** The message the server supplies in a body, if the body is not empty and
    decodes to a value that carries one. *)
Definition serverMessage (body : option (list byte)) : option string :=
  if (0 <? length (default [] body))%nat then
    match deserialize (default [] body) with
    | inl v => field_message v
    | inr _ => None
    end
  else None.

(** The code the server supplies in a body, likewise. *)
Definition serverCode (body : option (list byte)) : option Z :=
  if (0 <? length (default [] body))%nat then
    match deserialize (default [] body) with
    | inl v => field_code v
    | inr _ => None
    end
  else None.

Section Predicates.
Context `{Externals}.

(** A configuration [NewClient] refuses: the API version is not a supported
    one, the bot token is empty, the HTTP client is nil, or the user-agent
    source or version is empty. *)
Definition invalidConfig (conf : Config) : Prop :=
  SupportsDiscordAPIVersion (APIVersion conf) = false
  ∨ BotToken conf = ""
  ∨ HttpClient conf = None
  ∨ UserAgentSourceURL conf = ""
  ∨ UserAgentVersion conf = "".

(** [data] is a gzip member that holds [b]: the gzip reader accepts its
    header and reads [b] from it. *)
Definition gzipOf (data b : list byte) : Prop :=
  ∃ r, gzip_NewReader data = inl r ∧ gzip_ReadFrom r = inl b.

(** The response declares the gzip content encoding. *)
Definition declaresGzip (resp : Response) : Prop :=
  Header_Get (Resp_Header resp) ContentEncoding = GZIPCompression.

(** A status [Do] takes for a success. *)
Definition successStatus (status : Z) : bool :=
  (status =? StatusNotModified) || ((200 <=? status) && (status <? 300)).

(** The client's header template is a map of the heap. *)
Definition allocated (l : loc) (w : World) : Prop := (l < length (heap w))%nat.

(** The name of the audit header is none of the names the client sets
    itself. *)
Definition auditNameFree : Prop :=
  CanonicalMIMEHeaderKey XAuditLogReason
    ∉ ["Authorization"; "User-Agent"; "Accept-Encoding"; "Content-Type"].

(** The events a run added to the trace. *)
Definition newEvents (w w' : World) : list Event :=
  drop (length (trace w)) (trace w').

(** The results a bucket transaction can give: an error alone, or a response
    with its body (and possibly the error of the header normaliser). *)
Definition wellShaped (res : Result) : Prop :=
  match res with
  | (None, None, Some _) => True
  | (Some _, Some _, _) => True
  | _ => False
  end.

(** The header of the outgoing request, as lines 250-258 compute it from
    the template [tmpl]. *)
Definition outgoing (tmpl : http_Header) (r : Request) : http_Header :=
  let h := Header_Set (copyHeader_map tmpl) ContentType (Request_ContentType r) in
  if negb (String.eqb (Reason r) "") then Header_Add h XAuditLogReason (Reason r) else h.

End Predicates.

(** ** More of client.go *)

(** A line feed. *)
Definition newline : string := String (ascii_of_nat 10) "".

(** [fmt]'s [%+v] of a [[]string]: the elements between brackets, a space
    apart. *)
Definition fmt_strings (l : list string) : string :=
  "[" +:+ String.concat " " l +:+ "]".

(** [ErrREST.Error] (lines 80-82). *)
Definition ErrREST_Error (e : ErrREST) : string :=
  Msg e +:+ newline +:+ Suggestion e +:+ newline +:+ HashedEndpoint e
    +:+ " => " +:+ fmt_strings (ErrREST_Bucket e).

(** What a copy keeps of an entry: its values, unless there are none. *)
Definition nonEmpty (o : option (list string)) : option (list string) :=
  match o with
  | Some (v :: vs) => Some (v :: vs)
  | _ => None
  end.

(** Every key of the map is in canonical form. *)
Definition canonicalKeys (h : http_Header) : Prop :=
  ∀ k vs, h !! k = Some vs → CanonicalMIMEHeaderKey k = k.

Section MorePredicates.
Context `{Externals}.

(** The reader [Do] sends for a finalised request [p] (lines 228-242): the
    one already attached, else the body itself when it is a reader, else
    the marshalled body. *)
Definition bodyToSend (p : Request) : option Reader :=
  match bodyReader p with
  | Some rd => Some rd
  | None =>
      match Body p with
      | None => None
      | Some (BodyReader b) => Some b
      | Some (BodyOther v) =>
          match json_Marshal v with
          | inl jsonParamsBytes => Some (bytes_Reader jsonParamsBytes)
          | inr _ => None
          end
      end
  end.

(** The request [Do] hands to the transport for a finalised request [p],
    when the client's header template is [tmpl] (lines 228-258). *)
Definition requestSent (c : Client) (tmpl : http_Header) (p : Request) : SentRequest :=
  {| sent_Method := Method_String (Method p);
     sent_URL := url c +:+ Endpoint p;
     sent_Header := outgoing tmpl p;
     sent_Body := bodyToSend p |}.

End MorePredicates.

(** ** The bucket key of a request

    [Request.PopulateMissing] and the hashing of the endpoint are in
    request.go, which is not part of client.go; [Do] only reads the key they
    leave in [hashedEndpoint]. *)

(** A run of decimal digits. *)
Fixpoint allDigits (s : string) : bool :=
  match s with
  | "" => true
  | String c rest => isDigit c && allDigits rest
  end.

(** A path segment that is a numeric identifier. *)
Definition numericIdentifier (segment : string) : bool :=
  negb (String.eqb segment "") && allDigits segment.

(** The segments of a path: what stands between its slashes. *)
Fixpoint segments (path : string) : list string :=
  match path with
  | "" => [""]
  | String c rest =>
      if Ascii.eqb c "/" then "" :: segments rest
      else match segments rest with
           | segment :: more => String c segment :: more
           | [] => [String c ""]
           end
  end.

(** What stands for a variable segment in a key. *)
Definition placeholder : string := "{id}".

(** Modelled from the spec: the bucket key of a request, which request.go
    computes and client.go does not hold. The key is derived from the path,
    with the variable path segments, the numeric identifiers, replaced by a
    placeholder, so that structurally identical routes get the same key. *)
Definition bucketKey (path : string) : string :=
  String.concat "/"
    (map (λ segment, if numericIdentifier segment then placeholder else segment)
         (segments path)).

Section Finalize.
Context `{Outside}.

(** Modelled from the spec: [Request.PopulateMissing] (request.go), the
    spec's finalize: it computes the bucket key and defaults the content
    type, and does not derive the key again when it is already set. *)
Definition finalize (r : Request) : Request :=
  {| Method := Method r;
     Endpoint := Endpoint r;
     Body := Body r;
     Request_ContentType :=
       if String.eqb (Request_ContentType r) "" then ContentTypeJSON
       else Request_ContentType r;
     Reason := Reason r;
     bodyReader := bodyReader r;
     hashedEndpoint :=
       if String.eqb (hashedEndpoint r) "" then bucketKey (Endpoint r)
       else hashedEndpoint r |}.

End Finalize.

(** ** A test double for the outside

    A concrete world to run the client in, in the manner of the mocks of a
    Go test: a transport that replays canned responses, a bucket manager
    with one kind of bucket, a clock, and a gzip reader for members made of
    stored blocks. *)

Module Mock.

(** CRC-32 (IEEE), bit by bit, as gzip's trailer holds it. *)
Definition crcStep (crc : Z) : Z :=
  Z.lxor (Z.shiftr crc 1) (if Z.testbit crc 0 then 3988292384 else 0).

Definition crcByte (crc : Z) (b : byte) : Z :=
  Nat.iter 8 crcStep (Z.lxor crc (Z.of_N (Byte.to_N b))).

Definition crc32 (data : list byte) : Z :=
  Z.lxor (foldl crcByte 4294967295 data) 4294967295.

Definition byteZ (b : byte) : Z := Z.of_N (Byte.to_N b).

(** A little-endian number of [n] bytes at the head of [data]. *)
Fixpoint littleEndian (n : nat) (data : list byte) : option (Z * list byte) :=
  match n with
  | O => Some (0, data)
  | S n' =>
      match data with
      | b :: rest =>
          match littleEndian n' rest with
          | Some (v, rest') => Some (byteZ b + 256 * v, rest')
          | None => None
          end
      | [] => None
      end
  end.

(** A deflate stream of stored blocks (BTYPE 00): the bytes it holds and
    what follows the final block. *)
Fixpoint inflateStored (fuel : nat) (data : list byte) : option (list byte * list byte) :=
  match fuel with
  | O => None
  | S fuel' =>
      match data with
      | hd :: d1 =>
          if negb (Z.land (byteZ hd) 6 =? 0) then None
          else
            match littleEndian 2 d1 with
            | Some (len, d2) =>
                match littleEndian 2 d2 with
                | Some (nlen, d3) =>
                    if negb (len + nlen =? 65535) then None
                    else if (length d3 <? Z.to_nat len)%nat then None
                    else
                      let block := take (Z.to_nat len) d3 in
                      let d4 := drop (Z.to_nat len) d3 in
                      if Z.testbit (byteZ hd) 0 then Some (block, d4)
                      else
                        match inflateStored fuel' d4 with
                        | Some (more, rest) => Some (block ++ more, rest)
                        | None => None
                        end
                | None => None
                end
            | None => None
            end
      | [] => None
      end
  end.

(** The byte of a number below 256. *)
Definition byteOf (z : Z) : byte := default x00 (Byte.of_N (Z.to_N z)).

(** [v] in [n] bytes, little end first. *)
Fixpoint littleEndianBytes (n : nat) (v : Z) : list byte :=
  match n with
  | O => []
  | S n' => byteOf (v mod 256) :: littleEndianBytes n' (v / 256)
  end.

(** The longest stored block. *)
Definition maxStored : Z := 65535.

(** A deflate stream that stores [b] as it is, in blocks of at most
    [maxStored] bytes; [fuel] bounds the number of blocks. *)
Fixpoint storedBlocks (fuel : nat) (b : list byte) : list byte :=
  match fuel with
  | O => []
  | S fuel' =>
      let len := Z.of_nat (length b) in
      if len <=? maxStored then
        x01 :: littleEndianBytes 2 len ++ littleEndianBytes 2 (maxStored - len) ++ b
      else
        x00 :: littleEndianBytes 2 maxStored ++ littleEndianBytes 2 0
            ++ take (Z.to_nat maxStored) b
            ++ storedBlocks fuel' (drop (Z.to_nat maxStored) b)
  end.

(** A gzip writer without compression: header, stored blocks, CRC-32 and
    length. *)
Definition gzipStored (b : list byte) : list byte :=
  [x1f; x8b; x08; x00; x00; x00; x00; x00; x00; xff]
    ++ storedBlocks (S (length b)) b
    ++ littleEndianBytes 4 (crc32 b)
    ++ littleEndianBytes 4 (Z.of_nat (length b) mod 2 ^ 32).

(** [gzip.NewReader]: the ten-byte member header, without optional
    fields. *)
Definition newGzipReader (data : list byte) : list byte + error :=
  match data with
  | x1f :: x8b :: x08 :: x00 :: _ :: _ :: _ :: _ :: _ :: _ :: deflate => inl deflate
  | _ => inr (errors_New "gzip: invalid header")
  end.

(** Reading the member to its end: the stored blocks, then the CRC-32 and
    the length of the data. *)
Definition readMember (deflate : list byte) : list byte + error :=
  match inflateStored (S (length deflate)) deflate with
  | Some (out, trailer) =>
      match littleEndian 4 trailer with
      | Some (crc, t1) =>
          match littleEndian 4 t1 with
          | Some (isize, []) =>
              if (crc =? crc32 out) && (isize =? Z.of_nat (length out) mod 2 ^ 32)
              then inl out
              else inr (errors_New "gzip: invalid checksum")
          | _ => inr (errors_New "unexpected EOF")
          end
      | None => inr (errors_New "unexpected EOF")
      end
  | None => inr (errors_New "flate: corrupt input")
  end.

(** The state of the mocked outside. *)
Record Env := {
  responses : list (Response + error);
  clock : Z;
  groups : gmap string (list string)
}.

(** A context is either live or already cancelled. *)
Inductive TestCtx := Live | Cancelled.

Definition types : Outside := {|
  E := Env;
  Ctx := TestCtx;
  Value := option (list byte);
  gzipReader := list byte;
  httpMethod := string
|}.

#[local] Existing Instance types.

(** A transport that answers with the next canned response. *)
Definition transport : HttpClientDoer := {|
  doer_Do := λ _ e,
    match responses e with
    | r :: rest => (r, {| responses := rest; clock := clock e; groups := groups e |})
    | [] => (inr (errors_New "connection refused"), e)
    end
|}.

Definition bucket : RESTBucket := {|
  tx_wait := λ ctx e,
    match ctx with
    | Live => (None, e)
    | Cancelled => (Some (errors_New "context canceled"), e)
    end;
  tx_settle := λ _ e, e
|}.

Definition manager : RESTBucketManager := {|
  mgr_bucket := λ _ e, (bucket, e);
  mgr_BucketGrouping := groups
|}.

(** The request finalised: the method and content type defaulted, the
    bucket key derived unless it is already set. The key of the mock is the
    method and the path. *)
Definition populate (r : Request) : Request :=
  let method := if String.eqb (Method r) "" then "GET" else Method r in
  {| Method := method;
     Endpoint := Endpoint r;
     Body := Body r;
     Request_ContentType :=
       if String.eqb (Request_ContentType r) "" then ContentTypeJSON
       else Request_ContentType r;
     Reason := Reason r;
     bodyReader := bodyReader r;
     hashedEndpoint :=
       if String.eqb (hashedEndpoint r) "" then method +:+ ":" +:+ Endpoint r
       else hashedEndpoint r |}.

Definition externals : Externals := {|
  XAuditLogReason := "X-Audit-Log-Reason";
  XDisgordNow := "X-Disgord-Now";
  Method_String := λ m, m;
  PopulateMissing := populate;
  json_Marshal := λ v,
    match v with
    | Some b => inl b
    | None => inr (errors_New "json: unsupported type")
    end;
  NewRequest_check := λ _ method _,
    if String.eqb method "" then Some (errors_New "net/http: invalid method") else None;
  time_Now_UnixNano := clock;
  gzip_NewReader := newGzipReader;
  gzip_ReadFrom := readMember;
  NormalizeDiscordHeader := λ _ h _, (h, None);
  NewManager := manager
|}.

(** The gzip member that wraps the five bytes of hello in one stored
    block. *)
Definition gzipHello : list byte :=
  [x1f; x8b; x08; x00; x00; x00; x00; x00; x00; xff;
   x01; x05; x00; xfa; xff; x68; x65; x6c; x6c; x6f;
   x86; xa6; x10; x36; x05; x00; x00; x00]%byte.

(** The world before the client is built. *)
Definition boot (canned : list (Response + error)) : World :=
  {| heap := []; trace := [];
     env := {| responses := canned; clock := 1600000000123456789; groups := ∅ |} |}.

Definition config : Config := {|
  APIVersion := 8;
  BotToken := "Bot secret";
  HttpClient := Some transport;
  CancelRequestWhenRateLimited := false;
  Config_RESTBucketManager := None;
  UserAgentVersion := "v0.27";
  UserAgentSourceURL := "https://github.com/Vedza/disgord";
  UserAgentExtra := ""
|}.

(** The client [NewClient] builds from [config], and the world it leaves:
    the header template is the first map of the heap. *)
Definition client : Client := {|
  url := "https://discord.com/api/v8";
  reqHeader := 0%nat;
  httpClient := transport;
  cancelRequestWhenRateLimited := false;
  buckets := manager
|}.

Definition world (canned : list (Response + error)) : World :=
  {| heap := [defaultHeader config]; trace := [];
     env := {| responses := canned; clock := 1600000000123456789; groups := ∅ |} |}.

Definition request (body : option BodyValue) (contentType reason : string) : Request := {|
  Method := "POST";
  Endpoint := "/channels/1/messages";
  Body := body;
  Request_ContentType := contentType;
  Reason := reason;
  bodyReader := None;
  hashedEndpoint := ""
|}.

(** A request that was dispatched before as JSON (so [Do] has attached the
    reader of its marshalled body) and whose content type the caller then
    changed. *)
Definition redispatched : Request := {|
  Method := "POST";
  Endpoint := "/channels/1/messages";
  Body := Some (BodyOther (Some (bytes_of_string "{}")));
  Request_ContentType := "text/plain";
  Reason := "";
  bodyReader := Some (bytes_Reader (bytes_of_string "{}"));
  hashedEndpoint := "POST:/channels/1/messages"
|}.

Definition answer (status : Z) (encoding : list string) (body : list byte) : Response := {|
  StatusCode := status;
  Resp_Header := <["Content-Encoding" := encoding]> ∅;
  Resp_Body := bytes_Reader body
|}.

End Mock.

(** A second test double, whose [http.NewRequestWithContext] refuses a URL
    that holds a line feed (a control character). *)
Module MockStrict.

#[local] Existing Instance Mock.types.

Definition externals : Externals := {|
  XAuditLogReason := "X-Audit-Log-Reason";
  XDisgordNow := "X-Disgord-Now";
  Method_String := λ m, m;
  PopulateMissing := Mock.populate;
  json_Marshal := λ v,
    match v with
    | Some b => inl b
    | None => inr (errors_New "json: unsupported type")
    end;
  NewRequest_check := λ _ _ url,
    if Contains url newline
    then Some (errors_New "net/url: invalid control character in URL")
    else None;
  time_Now_UnixNano := Mock.clock;
  gzip_NewReader := Mock.newGzipReader;
  gzip_ReadFrom := Mock.readMember;
  NormalizeDiscordHeader := λ _ h _, (h, None);
  NewManager := Mock.manager
|}.

(** A request whose endpoint holds a line feed. *)
Definition brokenPath : Request := {|
  Method := "GET";
  Endpoint := "/users/1" +:+ newline;
  Body := None;
  Request_ContentType := "";
  Reason := "";
  bodyReader := None;
  hashedEndpoint := ""
|}.

End MockStrict.

(** A third test double, whose requests are finalised by [finalize]. *)
Module MockFinalize.

#[local] Existing Instance Mock.types.

Definition externals : Externals := {|
  XAuditLogReason := "X-Audit-Log-Reason";
  XDisgordNow := "X-Disgord-Now";
  Method_String := λ m, m;
  PopulateMissing := finalize;
  json_Marshal := λ v,
    match v with
    | Some b => inl b
    | None => inr (errors_New "json: unsupported type")
    end;
  NewRequest_check := λ _ method _,
    if String.eqb method "" then Some (errors_New "net/http: invalid method") else None;
  time_Now_UnixNano := Mock.clock;
  gzip_NewReader := Mock.newGzipReader;
  gzip_ReadFrom := Mock.readMember;
  NormalizeDiscordHeader := λ _ h _, (h, None);
  NewManager := Mock.manager
|}.

End MockFinalize.

Example bucketKey_messages :
  bucketKey "/channels/1/messages/22" = "/channels/{id}/messages/{id}".
Proof. reflexivity. Qed.

Example bucketKey_same_route :
  bucketKey "/guilds/4/members/7" = bucketKey "/guilds/19/members/123456".
Proof. reflexivity. Qed.

Example bucketKey_without_identifier : bucketKey "/gateway/bot" = "/gateway/bot".
Proof. reflexivity. Qed.

Example Itoa_403 : Itoa 403 = "403".
Proof. reflexivity. Qed.

Example Itoa_neg : Itoa (-12) = "-12".
Proof. reflexivity. Qed.

Example Itoa_zero : Itoa 0 = "0".
Proof. reflexivity. Qed.

Example canonical_keys :
  CanonicalMIMEHeaderKey "content-encoding" = "Content-Encoding" ∧
  CanonicalMIMEHeaderKey "X-Audit-Log-Reason" = "X-Audit-Log-Reason" ∧
  CanonicalMIMEHeaderKey "user agent" = "user agent".
Proof. repeat split; reflexivity. Qed.

Example deserialize_missing_access :
  deserialize missingAccess
  = inl {| field_code := Some 50001; field_message := Some "Missing Access" |}.
Proof. reflexivity. Qed.

Example crc32_hello : Mock.crc32 (bytes_of_string "hello") = 907060870.
Proof. vm_compute. reflexivity. Qed.

Example gunzip_hello :
  match Mock.newGzipReader Mock.gzipHello with
  | inl r => Mock.readMember r
  | inr err => inr err
  end = inl (bytes_of_string "hello").
Proof. vm_compute. reflexivity. Qed.

(** * Properties *)

Section Properties.
Context `{Externals}.

(** Running a monadic computation: unfold the binds, then compute. *)
Local Ltac run := unfold mbind, mret, M_bind, M_ret; cbn.
Local Ltac run_in H := unfold mbind, mret, M_bind, M_ret in H; cbn in H.


(** ** The supported API versions *)

(** C10. The allow-list of supported API versions has exactly one element:
    [SupportsDiscordAPIVersion v] is true if and only if [v] is 8, for
    every integer [v]. *)
Theorem SupportsDiscordAPIVersion_only_8 (v : Z) :
  SupportsDiscordAPIVersion v = true ↔ v = 8.
Proof.
  unfold SupportsDiscordAPIVersion. cbn [supportsLoop].
  destruct (8 =? v) eqn:Hv.
  - apply Z.eqb_eq in Hv. split; [lia | reflexivity].
  - apply Z.eqb_neq in Hv. split; [discriminate | lia].
Qed.

(** ** Construction *)

Lemma lookup_snoc_end {A} (l : list A) (x : A) : (l ++ [x]) !! length l = Some x.
Proof. apply list_lookup_middle. reflexivity. Qed.

(** What [NewClient] returns for a configuration it accepts. *)
Lemma NewClient_accepts (conf : Config) (w : World) :
  ¬ invalidConfig conf →
  ∃ doer c conf' w',
    HttpClient conf = Some doer
    ∧ NewClient conf w = (Some c, None, conf', w')
    ∧ httpClient c = doer
    ∧ buckets c = default NewManager (Config_RESTBucketManager conf)
    ∧ url c = BaseURL +:+ "/v" +:+ Itoa (APIVersion conf)
    ∧ Config_RESTBucketManager conf' = Some (buckets c)
    ∧ heap w' !! reqHeader c = Some (defaultHeader conf).
Proof.
  intros Hok. unfold invalidConfig in Hok. unfold NewClient.
  destruct (SupportsDiscordAPIVersion (APIVersion conf)) eqn:Hv; [|tauto].
  destruct (String.eqb_spec (BotToken conf) ""); [tauto|].
  destruct (HttpClient conf) as [doer|] eqn:Hd; [|tauto].
  cbn [negb].
  destruct (Config_RESTBucketManager conf) as [m|] eqn:Hm; cbn.
  - destruct (String.eqb_spec (UserAgentSourceURL conf) ""); [tauto|].
    destruct (String.eqb_spec (UserAgentVersion conf) ""); [tauto|].
    run. rewrite Hm. eexists _, _, _, _.
    repeat split; try reflexivity; [exact Hm | apply lookup_snoc_end].
  - destruct (String.eqb_spec (UserAgentSourceURL conf) ""); [tauto|].
    destruct (String.eqb_spec (UserAgentVersion conf) ""); [tauto|].
    run. eexists _, _, _, _. repeat split; try reflexivity. apply lookup_snoc_end.
Qed.

(** What [NewClient] returns for a configuration it refuses. *)
Lemma NewClient_refuses (conf : Config) (w : World) :
  invalidConfig conf →
  ∃ text conf' w', NewClient conf w = (None, Some (errors_New text), conf', w').
Proof.
  intros Hbad. unfold invalidConfig in Hbad. unfold NewClient.
  destruct (SupportsDiscordAPIVersion (APIVersion conf)) eqn:Hv; cbn [negb];
    [|eexists _, _, _; reflexivity].
  destruct (String.eqb_spec (BotToken conf) ""); [eexists _, _, _; reflexivity|].
  destruct (HttpClient conf) as [doer|] eqn:Hd; [|eexists _, _, _; reflexivity].
  assert (UserAgentSourceURL conf = "" ∨ UserAgentVersion conf = "") as Hua
    by (destruct Hbad as [?|[?|[?|[?|?]]]]; (congruence || tauto)).
  destruct (Config_RESTBucketManager conf) as [m|]; cbn.
  - destruct (String.eqb_spec (UserAgentSourceURL conf) ""); [eexists _, _, _; reflexivity|].
    destruct (String.eqb_spec (UserAgentVersion conf) ""); [eexists _, _, _; reflexivity|].
    tauto.
  - destruct (String.eqb_spec (UserAgentSourceURL conf) ""); [eexists _, _, _; reflexivity|].
    destruct (String.eqb_spec (UserAgentVersion conf) ""); [eexists _, _, _; reflexivity|].
    tauto.
Qed.

Lemma invalidConfig_dec (conf : Config) : invalidConfig conf ∨ ¬ invalidConfig conf.
Proof.
  unfold invalidConfig.
  destruct (SupportsDiscordAPIVersion (APIVersion conf)); [|tauto].
  destruct (String.eqb_spec (BotToken conf) ""); [tauto|].
  destruct (HttpClient conf); [|tauto].
  destruct (String.eqb_spec (UserAgentSourceURL conf) ""); [tauto|].
  destruct (String.eqb_spec (UserAgentVersion conf) ""); [tauto|].
  right. intros [?|[?|[?|[?|?]]]]; congruence.
Qed.

(** C5. [NewClient] returns a nil client together with a configuration
    error if and only if the API version is outside the supported set, or
    the bot credential is empty, or the injected transport is nil, or the
    user-agent source or version is empty; otherwise it returns a client
    (holding the injected transport and the versioned base URL) and no
    error. *)
Theorem NewClient_error_iff_invalid (conf : Config) (w : World) :
  let '(c, err, _) := fst (NewClient conf w) in
  ((c = None ∧ ∃ text, err = Some (errors_New text)) ↔ invalidConfig conf)
  ∧ ((∃ cl, c = Some cl
            ∧ HttpClient conf = Some (httpClient cl)
            ∧ url cl = BaseURL +:+ "/v" +:+ Itoa (APIVersion conf))
      ∧ err = None
     ↔ ¬ invalidConfig conf).
Proof.
  destruct (invalidConfig_dec conf) as [Hbad|Hok].
  - destruct (NewClient_refuses conf w Hbad) as (text & conf' & w' & ->). cbn.
    split; split; try tauto.
    + intros _. split; [reflexivity | eauto].
    + intros [(cl & Hcl & _) _]. discriminate.
  - destruct (NewClient_accepts conf w Hok)
      as (doer & c & conf' & w' & Hd & -> & Hc & _ & Hu & _ & _).
    cbn. split; split; try tauto.
    + intros [Hnone _]. discriminate.
    + intros _. split; [|reflexivity]. exists c. subst doer. auto.
Qed.

(** C9. A configuration whose bucket manager is nil is not refused for it:
    if the other required parameters are in order, [NewClient] installs the
    default manager ([NewManager]) in the client and in the configuration,
    and returns the client with no error. *)
Theorem NewClient_default_manager (conf : Config) (w : World) :
  Config_RESTBucketManager conf = None →
  ¬ invalidConfig conf →
  ∃ c conf' w',
    NewClient conf w = (Some c, None, conf', w')
    ∧ buckets c = NewManager
    ∧ Config_RESTBucketManager conf' = Some NewManager.
Proof.
  intros Hnil Hok.
  destruct (NewClient_accepts conf w Hok)
    as (doer & c & conf' & w' & _ & Hrun & _ & Hb & _ & Hm & _).
  rewrite Hnil in Hb. cbn in Hb. rewrite Hb in Hm.
  exists c, conf', w'. auto.
Qed.

(** ** Decoding the body *)

(** C3. For every byte sequence [b], decoding a response that declares the
    gzip content encoding and whose body is a gzip member holding [b] gives
    exactly [b]; and for every response that does not declare gzip, the
    decoded body is the raw body, byte for byte. *)
Theorem decodeResponseBody_gzip_or_identity (c : Client) (resp : Response) (raw : list byte) :
  ioutil_ReadAll (Resp_Body resp) = inl raw →
  (∀ b, declaresGzip resp → gzipOf raw b → decodeResponseBody c resp = (Some b, None))
  ∧ (¬ declaresGzip resp → decodeResponseBody c resp = (Some raw, None)).
Proof.
  intros Hread. unfold declaresGzip, decodeResponseBody. rewrite Hread. split.
  - intros b Hgz (r & Hnew & Hfrom). rewrite Hgz, String.eqb_refl, Hnew, Hfrom. reflexivity.
  - intros Hplain. destruct (String.eqb_spec (Header_Get (Resp_Header resp) ContentEncoding) GZIPCompression);
      [contradiction | reflexivity].
Qed.



Lemma decodeResponseBody_shape c resp :
  (∃ b, decodeResponseBody c resp = (Some b, None))
  ∨ (∃ err, decodeResponseBody c resp = (None, Some err)).
Proof.
  unfold decodeResponseBody.
  destruct (ioutil_ReadAll _); [|eauto].
  destruct (String.eqb _ _); [|eauto].
  destruct (gzip_NewReader _); [|eauto].
  destruct (gzip_ReadFrom _); eauto.
Qed.

Lemma roundTrip_shape c req w : wellShaped (fst (roundTrip c req w)).
Proof.
  unfold roundTrip, httpClient_Do, sending, time_Now, outside, record, load.
  unfold mbind, mret, M_bind, M_ret. cbn.
  destruct (doer_Do _ _ _) as [[resp|err] e]; cbn; [|exact I].
  match goal with |- context [decodeResponseBody c ?r] =>
    destruct (decodeResponseBody_shape c r) as [[b ->]|[err ->]] end; cbn; [|exact I].
  destruct (NormalizeDiscordHeader _ _ _) as [h err]. cbn. exact I.
Qed.

Lemma Transaction_shape bucket ctx work w :
  (∀ w1, wellShaped (fst (work w1))) →
  wellShaped (fst (Transaction bucket ctx work w)).
Proof.
  intros Hwork. unfold Transaction, outside, record.
  unfold mbind, mret, M_bind, M_ret. cbn.
  destruct (tx_wait _ _ _) as [[err|] e]; cbn; [exact I|].
  match goal with |- context [work ?w1] => specialize (Hwork w1); destruct (work w1) as [res w2] end.
  cbn in *. exact Hwork.
Qed.


Lemma send_shape c ctx r w :
  match fst (fst (send c ctx r w)) with
  | Returned _ => True
  | Transacted res => wellShaped res
  end.
Proof.
  unfold send.
  destruct (attachBody _) as [r1|err]; [|exact I].
  unfold http_NewRequestWithContext.
  destruct (NewRequest_check _ _ _) as [err|]; [exact I|].
  unfold mbind, mret, M_bind, M_ret.
  destruct (alloc _ _) as [h w1].
  destruct (outgoingHeader _ _ _ _) as [req w2].
  unfold Bucket, mbind, mret, M_bind, M_ret.
  destruct (record _ _) as [[] w3].
  destruct (outside _ _) as [bucket w4].
  pose proof (Transaction_shape bucket ctx (roundTrip c req) w4 (roundTrip_shape c req)) as Hs.
  destruct (Transaction _ _ _ _) as [res w5]. exact Hs.
Qed.

Lemma Do_unfold c ctx r w :
  Do c ctx r w =
  let '(progress, r', w1) := send c ctx r w in
  match progress with
  | Returned err => (Returns (None, None, Some err), r', w1)
  | Transacted res =>
      let '(out, w2) := classify c r' res w1 in (out, r', w2)
  end.
Proof.
  unfold Do, mbind, mret, M_bind, M_ret.
  destruct (send c ctx r w) as [[[err|res] r'] w1]; [reflexivity|].
  destruct (classify _ _ _ _); reflexivity.
Qed.

(** ** Dispatch *)

(** C8. Every call of [Do] ends in exactly one of two ways: a non-nil
    response with a nil error, or a nil response and a nil body with a
    non-nil error. It never dereferences a nil pointer and never returns a
    response together with an error. *)
Theorem Do_response_xor_error (c : Client) (ctx : Ctx) (r : Request) (w : World) :
  (∃ resp body, fst (fst (Do c ctx r w)) = Returns (Some resp, body, None))
  ∨ (∃ err, fst (fst (Do c ctx r w)) = Returns (None, None, Some err)).
Proof.
  rewrite Do_unfold. pose proof (send_shape c ctx r w) as Hs.
  destruct (send c ctx r w) as [[[err|res] r'] w1]; cbn in *; [eauto|].
  destruct res as [[[resp|] [body|]] [err|]]; cbn in Hs; try contradiction;
    unfold classify, mret, mbind, M_ret, M_bind, BucketGrouping; cbn; eauto.
  destruct (negb _); cbn; eauto.
Qed.


Lemma prefix_refl (s : string) : String.prefix s s = true.
Proof.
  induction s as [|a s IH]; cbn; [reflexivity|].
  destruct (ascii_dec a a); [exact IH | congruence].
Qed.

Lemma Contains_refl (s : string) : Contains s s = true.
Proof. destruct s; cbn -[String.prefix]; rewrite prefix_refl; reflexivity. Qed.

Lemma Contains_append (pre sub : string) : Contains (pre +:+ sub) sub = true.
Proof.
  induction pre as [|a pre IH].
  - apply Contains_refl.
  - change (String a pre +:+ sub) with (String a (pre +:+ sub)).
    cbn -[String.prefix]. rewrite IH. apply orb_true_r.
Qed.

Lemma statusMessage_embeds (status : Z) :
  Contains (statusMessage status) (Itoa status) = true.
Proof. apply Contains_append. Qed.

Lemma classify_success c r resp body w :
  successStatus (StatusCode resp) = true →
  classify c r (Some resp, body, None) w = (Returns (Some resp, body, None), w).
Proof.
  unfold successStatus, classify. intros ->. reflexivity.
Qed.

Lemma classify_failure c r resp body w :
  successStatus (StatusCode resp) = false →
  classify c r (Some resp, body, None) w =
  (Returns (None, None, Some (ErrREST_ptr
     {| Code := default 0 (serverCode body);
        Msg := default (statusMessage (StatusCode resp)) (serverMessage body);
        Suggestion := string_of_bytes (default [] body);
        HTTPCode := StatusCode resp;
        ErrREST_Bucket :=
          default [] (mgr_BucketGrouping (buckets c) (env w) !! hashedEndpoint r);
        HashedEndpoint := hashedEndpoint r |})), w).
Proof.
  unfold successStatus, classify. intros ->.
  unfold mbind, mret, M_bind, M_ret, BucketGrouping, serverCode, serverMessage. cbn [negb].
  destruct (0 <? length (default [] body))%nat; [|reflexivity].
  unfold json_Unmarshal. destruct (deserialize _); reflexivity.
Qed.

(** C1, as amended. When the transaction of a dispatched request yields a
    response, [Do] returns the response and the decoded body with a nil
    error exactly when the status is in [200,300) or is 304. For every
    other status it returns a nil response, a nil body and an [*ErrREST]
    that carries the status as [HTTPCode], the body text as [Suggestion],
    the bucket grouping of the request's key and the key itself; its message
    is the message the server supplied when the body is not empty and
    decodes to one, and otherwise the status-based message, which embeds
    the numeric status. *)
Theorem Do_classifies_status
    (c : Client) (ctx : Ctx) (r r' : Request) (w w' : World)
    (resp : Response) (body : option (list byte)) :
  send c ctx r w = (Transacted (Some resp, body, None), r', w') →
  (successStatus (StatusCode resp) = true →
     Do c ctx r w = (Returns (Some resp, body, None), r', w'))
  ∧ (successStatus (StatusCode resp) = false →
     ∃ e, Do c ctx r w = (Returns (None, None, Some (ErrREST_ptr e)), r', w')
          ∧ HTTPCode e = StatusCode resp
          ∧ Msg e = default (statusMessage (StatusCode resp)) (serverMessage body)
          ∧ Contains (statusMessage (StatusCode resp)) (Itoa (StatusCode resp)) = true
          ∧ Suggestion e = string_of_bytes (default [] body)
          ∧ ErrREST_Bucket e =
              default [] (mgr_BucketGrouping (buckets c) (env w') !! hashedEndpoint r')
          ∧ HashedEndpoint e = hashedEndpoint r').
Proof.
  intros Hsend. rewrite Do_unfold, Hsend. split; intros Hst.
  - rewrite (classify_success _ _ _ _ _ Hst). reflexivity.
  - rewrite (classify_failure _ _ _ _ _ Hst). eexists. split; [reflexivity|].
    cbn. repeat split; try reflexivity. apply statusMessage_embeds.
Qed.

Lemma attachBody_fields (r r1 : Request) :
  attachBody r = inl r1 →
  Reason r1 = Reason r
  ∧ Request_ContentType r1 = Request_ContentType r
  ∧ hashedEndpoint r1 = hashedEndpoint r.
Proof.
  unfold attachBody. intros Hr.
  destruct (Body r) as [[b|v]|], (bodyReader r) as [rd|]; try (injection Hr as <-; auto).
  destruct (negb _); [discriminate|].
  destruct (convertStructToIOReader _ _); [|discriminate].
  injection Hr as <-. auto.
Qed.

(** The request [send] leaves is the finalised request, but for its body
    reader. *)
Lemma send_request c ctx r w :
  let r' := snd (fst (send c ctx r w)) in
  Reason r' = Reason (PopulateMissing r)
  ∧ Request_ContentType r' = Request_ContentType (PopulateMissing r)
  ∧ hashedEndpoint r' = hashedEndpoint (PopulateMissing r).
Proof.
  unfold send.
  destruct (attachBody _) as [r1|err] eqn:Hattach; [|cbn; auto].
  apply attachBody_fields in Hattach.
  unfold http_NewRequestWithContext.
  destruct (NewRequest_check _ _ _) as [err|]; run; [exact Hattach|].
  destruct (outgoingHeader _ _ _ _) as [req w2].
  destruct (Bucket _ _ _ _) as [res w3]. exact Hattach.
Qed.






(** C7, as amended. For every request that, once [PopulateMissing] has
    run, has no body reader yet, a body that is neither nil nor an
    [io.Reader], and a content type other than [ContentTypeJSON], [Do]
    returns the validation error and leaves the world as it was: no request
    is built, the transport is not called and no bucket is asked for a
    transaction. *)
Theorem Do_refuses_unencodable_body
    (c : Client) (ctx : Ctx) (r : Request) (w : World) (v : Value) :
  Body (PopulateMissing r) = Some (BodyOther v) →
  bodyReader (PopulateMissing r) = None →
  Request_ContentType (PopulateMissing r) ≠ ContentTypeJSON →
  Do c ctx r w = (Returns (None, None, Some unknownBodyError), PopulateMissing r, w)
  ∧ newEvents w (snd (Do c ctx r w)) = [].
Proof.
  intros Hbody Hreader Htype.
  assert (Do c ctx r w = (Returns (None, None, Some unknownBodyError), PopulateMissing r, w)) as ->.
  { rewrite Do_unfold. unfold send, attachBody.
    rewrite Hbody, Hreader.
    destruct (String.eqb_spec (Request_ContentType (PopulateMissing r)) ContentTypeJSON);
      [contradiction|].
    reflexivity. }
  split; [reflexivity|]. apply drop_all.
Qed.


(** The worlds a computation may leave: same heap, more events. *)
Lemma roundTrip_world c req w :
  heap (snd (roundTrip c req w)) = heap w
  ∧ trace (snd (roundTrip c req w)) = trace w ++ [EvTransport (fst (sending req w))].
Proof.
  unfold roundTrip, httpClient_Do, sending, time_Now, outside, record, load.
  unfold mbind, mret, M_bind, M_ret. cbn.
  destruct (doer_Do _ _ _) as [[resp|err] e]; cbn; [|auto].
  destruct (decodeResponseBody _ _) as [body [err|]]; cbn; [auto|].
  destruct (NormalizeDiscordHeader _ _ _) as [h err]. cbn. auto.
Qed.

Lemma Transaction_world bucket ctx c req w :
  let w' := snd (Transaction bucket ctx (roundTrip c req) w) in
  heap w' = heap w
  ∧ (trace w' = trace w ++ [EvTransactionBegin; EvTransactionEnd]
     ∨ trace w' = trace w ++ [EvTransactionBegin; EvTransport (fst (sending req w)); EvTransactionEnd]).
Proof.
  unfold Transaction, outside, record.
  unfold mbind, mret, M_bind, M_ret. cbn.
  destruct (tx_wait _ _ _) as [[err|] e]; cbn.
  - split; [reflexivity|]. left. rewrite <- app_assoc. reflexivity.
  - match goal with |- context [roundTrip c req ?w1] =>
      pose proof (roundTrip_world c req w1) as [Hh Ht];
      destruct (roundTrip c req w1) as [res w2] end.
    cbn in *. split; [exact Hh|]. right. rewrite Ht, <- !app_assoc. reflexivity.
Qed.


Lemma foldl_Header_Add_other (vs : list string) (cp : http_Header) (key k : string) :
  CanonicalMIMEHeaderKey key ≠ k →
  foldl (λ cp v, Header_Add cp key v) cp vs !! k = cp !! k.
Proof.
  intros Hne. revert cp. induction vs as [|v vs IH]; intros cp; cbn; [reflexivity|].
  rewrite IH. unfold Header_Add. apply lookup_insert_ne. exact Hne.
Qed.

(** A key that is the canonical form of no key of [h] is not in the copy. *)
Lemma copyHeader_map_None (h : http_Header) (k : string) :
  (∀ k' vs, h !! k' = Some vs → CanonicalMIMEHeaderKey k' ≠ k) →
  copyHeader_map h !! k = None.
Proof.
  unfold copyHeader_map.
  apply (map_fold_weak_ind
           (λ cp (m : http_Header),
              (∀ k' vs, m !! k' = Some vs → CanonicalMIMEHeaderKey k' ≠ k) → cp !! k = None)).
  - intros _. apply lookup_empty.
  - intros i x m cp Hfresh IH Hkeys.
    rewrite foldl_Header_Add_other.
    + apply IH. intros k' vs Hk'. apply (Hkeys k' vs).
      rewrite lookup_insert_ne; [exact Hk'|]. intros ->. congruence.
    + apply (Hkeys i x). apply lookup_insert_eq.
Qed.

Lemma defaultHeader_keys (conf : Config) (k : string) (vs : list string) :
  defaultHeader conf !! k = Some vs →
  k = "Authorization" ∨ k = "User-Agent" ∨ k = "Accept-Encoding".
Proof.
  unfold defaultHeader. cbn zeta.
  rewrite !lookup_insert_Some, lookup_empty. intuition congruence.
Qed.

Lemma copy_of_defaultHeader_without_audit (conf : Config) :
  auditNameFree →
  copyHeader_map (defaultHeader conf) !! CanonicalMIMEHeaderKey XAuditLogReason = None.
Proof.
  unfold auditNameFree. rewrite !not_elem_of_cons. intros (Ha & Hu & He & _).
  apply copyHeader_map_None. intros k' vs Hk'.
  destruct (defaultHeader_keys conf k' vs Hk') as [-> | [-> | ->]];
    intros Heq; rewrite <- Heq in *; [apply Ha|apply Hu|apply He]; reflexivity.
Qed.



Lemma outgoingHeader_run c r req w :
  allocated (Req_Header req) w →
  let req' := fst (outgoingHeader c r req w) in
  let w' := snd (outgoingHeader c r req w) in
  Req_Header req' = length (heap w)
  ∧ heap w' !! Req_Header req' = Some (outgoing (default ∅ (heap w !! reqHeader c)) r)
  ∧ (∀ l, l ≠ Req_Header req → l ≠ Req_Header req' → heap w' !! l = heap w !! l)
  ∧ length (heap w') = S (length (heap w))
  ∧ trace w' = trace w ∧ env w' = env w.
Proof.
  unfold allocated. intros Halloc.
  unfold outgoingHeader, copyHeader, update, load, store, alloc, outgoing.
  unfold mbind, mret, M_bind, M_ret. cbn.
  rewrite lookup_snoc_end. cbn.
  rewrite insert_app_r_alt, Nat.sub_diag by lia. cbn.
  destruct (negb (String.eqb (Reason r) "")); cbn.
  - rewrite lookup_snoc_end. cbn.
    rewrite insert_app_r_alt, Nat.sub_diag by lia. cbn.
    rewrite lookup_snoc_end, length_app. cbn.
    repeat split; try reflexivity; [|lia].
    intros l _ Hl. destruct (decide (l < length (heap w))%nat).
    + rewrite lookup_app_l by lia. reflexivity.
    + rewrite !lookup_ge_None_2; [reflexivity | lia | rewrite length_app; cbn; lia].
  - rewrite list_lookup_insert_ne by lia. rewrite lookup_snoc_end.
    rewrite length_insert, length_app. cbn.
    repeat split; try reflexivity; [|lia].
    intros l Hl1 Hl2. rewrite list_lookup_insert_ne by congruence.
    destruct (decide (l < length (heap w))%nat).
    + rewrite lookup_app_l by lia. reflexivity.
    + rewrite !lookup_ge_None_2; [reflexivity | lia | rewrite length_app; cbn; lia].
Qed.


Lemma sending_heap req w1 w2 :
  heap w1 = heap w2 → fst (sending req w1) = fst (sending req w2).
Proof.
  unfold sending, load, mbind, mret, M_bind, M_ret. cbn. intros ->. reflexivity.
Qed.

Lemma sent_Header_sending req w :
  sent_Header (fst (sending req w)) = default ∅ (heap w !! Req_Header req).
Proof. reflexivity. Qed.

Lemma classify_world c r res w : snd (classify c r res w) = w.
Proof.
  unfold classify. destruct res as [[[resp|] body] [err|]]; try reflexivity.
  unfold mbind, mret, M_bind, M_ret, BucketGrouping.
  destruct (negb _); reflexivity.
Qed.

(** What [send] does to the world: the maps that were in the heap are as
    they were, and the new events are those of at most one transaction
    around at most one call of the transport, whose request carries the
    outgoing header. *)
Lemma send_world c ctx r w :
  let r' := snd (fst (send c ctx r w)) in
  let w' := snd (send c ctx r w) in
  (∀ l, allocated l w → heap w' !! l = heap w !! l)
  ∧ (length (heap w) ≤ length (heap w'))%nat
  ∧ (newEvents w w' = []
     ∨ newEvents w w' = [EvBucket (hashedEndpoint r'); EvTransactionBegin; EvTransactionEnd]
     ∨ ∃ sent,
         newEvents w w' =
           [EvBucket (hashedEndpoint r'); EvTransactionBegin; EvTransport sent; EvTransactionEnd]
         ∧ sent_Header sent = outgoing (default ∅ (heap w !! reqHeader c)) r').
Proof.
  destruct (send c ctx r w) as [[p r'] w'] eqn:Hsend. cbn.
  unfold send, newEvents, allocated in *.
  destruct (attachBody _) as [r1|err] eqn:Hattach; run_in Hsend;
    [|injection Hsend as <- <- <-; split; [auto|split; [lia|left; apply drop_all]]].
  unfold http_NewRequestWithContext in Hsend.
  destruct (NewRequest_check _ _ _) as [err|]; run_in Hsend;
    [injection Hsend as <- <- <-; split; [auto|split; [lia|left; apply drop_all]]|].
  match type of Hsend with context [outgoingHeader c r1 ?req ?w1] =>
    pose proof (outgoingHeader_run c r1 req w1) as Hout;
    destruct (outgoingHeader c r1 req w1) as [req' w2] end.
  unfold allocated in Hout. cbn in Hout. rewrite length_app in Hout. cbn in Hout.
  destruct Hout as (Haddr & Hmap & Hframe & Hlen & Htrace & Henv); [lia|].
  unfold Bucket, record, outside in Hsend. run_in Hsend.
  destruct (mgr_bucket _ _ _) as [bucket e].
  match type of Hsend with context [Transaction bucket ctx _ ?w3] =>
    pose proof (Transaction_world bucket ctx c req' w3) as [Hheap Hev];
    rewrite (sending_heap req' w3 w2 eq_refl) in Hev;
    destruct (Transaction bucket ctx (roundTrip c req') w3) as [res w4] end.
  injection Hsend as <- <- <-.
  cbn in *. rewrite Hheap. split; [|split].
  - intros l Hl. rewrite Hframe by lia. apply lookup_app_l. exact Hl.
  - lia.
  - right. rewrite Htrace in Hev. destruct Hev as [-> | ->]; rewrite <- app_assoc, drop_app_length.
    + left. reflexivity.
    + right. eexists. split; [reflexivity|].
      rewrite sent_Header_sending, Hmap. unfold outgoing.
      destruct (decide (reqHeader c < length (heap w))%nat).
      * rewrite lookup_app_l by lia. reflexivity.
      * destruct (decide (reqHeader c = length (heap w))) as [->|].
        -- rewrite lookup_snoc_end, (lookup_ge_None_2 (heap w)) by lia. reflexivity.
        -- rewrite !lookup_ge_None_2; [reflexivity | lia | rewrite length_app; cbn; lia].
Qed.


Lemma Do_world c ctx r w :
  snd (Do c ctx r w) = snd (send c ctx r w)
  ∧ snd (fst (Do c ctx r w)) = snd (fst (send c ctx r w)).
Proof.
  rewrite Do_unfold.
  destruct (send c ctx r w) as [[[err|res] r'] w']; cbn; [auto|].
  pose proof (classify_world c r' res w') as Hw.
  destruct (classify c r' res w') as [out w'']. cbn in *. auto.
Qed.

(** For any template: the outgoing header holds the audit header when the
    request has a reason, or when the copy of the template holds it (line
    256 deletes from the map of the request, which line 258 replaces). *)
Lemma outgoing_audit_any_template (tmpl : http_Header) (r : Request) :
  CanonicalMIMEHeaderKey XAuditLogReason ≠ CanonicalMIMEHeaderKey ContentType →
  Header_has (outgoing tmpl r) XAuditLogReason
  ↔ Reason r ≠ "" ∨ Header_has (copyHeader_map tmpl) XAuditLogReason.
Proof.
  intros Hct. unfold outgoing, Header_has.
  destruct (String.eqb_spec (Reason r) "") as [Hr|Hr]; cbn [negb].
  - unfold Header_Set. rewrite lookup_insert_ne by congruence. tauto.
  - unfold Header_Add. rewrite lookup_insert_eq. split; [auto | eauto].
Qed.

Lemma outgoing_audit (conf : Config) (r : Request) :
  auditNameFree →
  Header_has (outgoing (defaultHeader conf) r) XAuditLogReason ↔ Reason r ≠ "".
Proof.
  intros Hfree. pose proof (copy_of_defaultHeader_without_audit conf Hfree) as Hcopy.
  unfold auditNameFree in Hfree. rewrite !not_elem_of_cons in Hfree.
  destruct Hfree as (_ & _ & _ & Hct & _).
  rewrite outgoing_audit_any_template by exact Hct.
  unfold Header_has. rewrite Hcopy.
  split; [intros [?|[? ?]]; [assumption|discriminate] | auto].
Qed.

(** The inner loop of [copyHeader] at the key it writes. *)
Lemma foldl_Header_Add_same (vs : list string) (cp : http_Header) (key : string) :
  foldl (λ cp v, Header_Add cp key v) cp vs !! CanonicalMIMEHeaderKey key
  = match vs with
    | [] => cp !! CanonicalMIMEHeaderKey key
    | _ :: _ => Some (default [] (cp !! CanonicalMIMEHeaderKey key) ++ vs)
    end.
Proof.
  revert cp. induction vs as [|v vs IH]; intros cp; [reflexivity|].
  cbn [foldl]. rewrite IH. unfold Header_Add. rewrite !lookup_insert_eq.
  destruct vs as [|v' vs]; cbn [from_option id]; [reflexivity|].
  rewrite <- app_assoc. reflexivity.
Qed.

(** The copy of a map with canonical keys, entry by entry. *)
Lemma copyHeader_map_canonical_lookup (h : http_Header) :
  canonicalKeys h → ∀ k, copyHeader_map h !! k = nonEmpty (h !! k).
Proof.
  unfold copyHeader_map, canonicalKeys.
  apply (map_fold_weak_ind
           (λ cp (m : http_Header),
              (∀ k vs, m !! k = Some vs → CanonicalMIMEHeaderKey k = k)
              → ∀ k, cp !! k = nonEmpty (m !! k))).
  - intros _ k. rewrite !lookup_empty. reflexivity.
  - intros i x m cp Hfresh IH Hkeys k.
    assert (CanonicalMIMEHeaderKey i = i) as Hi by (apply (Hkeys i x), lookup_insert_eq).
    assert (∀ k, cp !! k = nonEmpty (m !! k)) as Hcp.
    { apply IH. intros k' vs Hk'. apply (Hkeys k' vs).
      rewrite lookup_insert_ne; [exact Hk'|]. intros ->. congruence. }
    destruct (decide (i = k)) as [<-|Hne].
    + rewrite lookup_insert_eq.
      pose proof (foldl_Header_Add_same x cp i) as Hf. rewrite Hi in Hf. rewrite Hf.
      rewrite Hcp, Hfresh. destruct x; reflexivity.
    + rewrite lookup_insert_ne by exact Hne.
      rewrite foldl_Header_Add_other by (rewrite Hi; exact Hne). apply Hcp.
Qed.

(** Every field of the source that has a value is in the copy, under its
    canonical name. *)
Lemma copyHeader_map_carries (h : http_Header) (k v : string) (vs : list string) :
  h !! k = Some (v :: vs) → is_Some (copyHeader_map h !! CanonicalMIMEHeaderKey k).
Proof.
  unfold copyHeader_map. revert k v vs.
  apply (map_fold_weak_ind
           (λ cp (m : http_Header),
              ∀ k v vs, m !! k = Some (v :: vs) → is_Some (cp !! CanonicalMIMEHeaderKey k))).
  - intros k v vs Hk. rewrite lookup_empty in Hk. discriminate.
  - intros i x m cp Hfresh IH k v vs Hk.
    destruct (decide (i = k)) as [->|Hne].
    + rewrite lookup_insert_eq in Hk. injection Hk as ->.
      rewrite foldl_Header_Add_same. eauto.
    + rewrite lookup_insert_ne in Hk by exact Hne. specialize (IH k v vs Hk).
      destruct (decide (CanonicalMIMEHeaderKey i = CanonicalMIMEHeaderKey k)) as [Heq|Hother].
      * rewrite <- Heq in *. rewrite foldl_Header_Add_same. destruct x; [exact IH | eauto].
      * rewrite foldl_Header_Add_other by exact Hother. exact IH.
Qed.

(** The outgoing header holds every field of the template that has a
    value. *)
Lemma outgoing_carries_template (tmpl : http_Header) (r : Request) (k v : string)
    (vs : list string) :
  tmpl !! k = Some (v :: vs) → is_Some (outgoing tmpl r !! CanonicalMIMEHeaderKey k).
Proof.
  intros Hk. apply copyHeader_map_carries in Hk. unfold outgoing.
  destruct (negb _); unfold Header_Add, Header_Set;
    rewrite !lookup_insert_is_Some'; auto.
Qed.

(** What the outgoing header keeps of a template whose keys are canonical:
    every field but the content type and the audit header, as the template
    has it. *)
Lemma outgoing_keeps_template (tmpl : http_Header) (r : Request) (k : string) :
  canonicalKeys tmpl →
  k ≠ CanonicalMIMEHeaderKey ContentType →
  k ≠ CanonicalMIMEHeaderKey XAuditLogReason →
  outgoing tmpl r !! k = nonEmpty (tmpl !! k).
Proof.
  intros Hcanon Hct Haudit. unfold outgoing.
  destruct (negb _); unfold Header_Add, Header_Set;
    rewrite ?(lookup_insert_ne _ (CanonicalMIMEHeaderKey XAuditLogReason)) by congruence;
    rewrite lookup_insert_ne by congruence;
    apply copyHeader_map_canonical_lookup, Hcanon.
Qed.

(** The header of every request a run of [send] hands to the transport is
    the one lines 250-258 compute from the template. *)
Lemma send_sent_header c ctx r w sent :
  EvTransport sent ∈ newEvents w (snd (send c ctx r w)) →
  sent_Header sent
  = outgoing (default ∅ (heap w !! reqHeader c)) (snd (fst (send c ctx r w))).
Proof.
  intros Hin. destruct (send_world c ctx r w) as (_ & _ & Hev).
  destruct Hev as [Hev | [Hev | (sent' & Hev & Hhdr)]]; rewrite Hev in Hin.
  - apply elem_of_nil in Hin. contradiction.
  - rewrite !elem_of_cons in Hin. destruct Hin as [?|[?|[?|Hin]]]; try discriminate.
    apply elem_of_nil in Hin. contradiction.
  - rewrite !elem_of_cons in Hin.
    destruct Hin as [?|[?|[Hin|[?|Hin]]]]; try discriminate;
      [|apply elem_of_nil in Hin; contradiction].
    injection Hin as ->. exact Hhdr.
Qed.

(** C6. Every dispatch builds its outgoing header from a copy of the
    client's header template, and leaves the template as it was. A call of
    [Do] does not change the map of the template. The header of the request
    it hands to the transport holds every field of the template that has a
    value, under its canonical name; when the keys of the template are
    canonical, as those of the one [NewClient] builds are, it holds them
    with the values the template has, and nothing else but the content type
    and the audit header, which the call sets itself. And for a client whose
    template is the one [NewClient] builds, that request carries the audit
    header exactly when the request, once finalised, has a non-empty
    [Reason]; the name of the audit header is assumed to be none of the
    header names the client sets itself. *)
Theorem Do_private_header_copy (c : Client) (ctx : Ctx) (r : Request) (w : World) :
  allocated (reqHeader c) w →
  let w' := snd (Do c ctx r w) in
  heap w' !! reqHeader c = heap w !! reqHeader c
  ∧ (∀ tmpl sent,
       heap w !! reqHeader c = Some tmpl →
       EvTransport sent ∈ newEvents w w' →
       (∀ k v vs, tmpl !! k = Some (v :: vs) →
                  is_Some (sent_Header sent !! CanonicalMIMEHeaderKey k))
       ∧ (canonicalKeys tmpl →
          ∀ k, k ≠ CanonicalMIMEHeaderKey ContentType →
               k ≠ CanonicalMIMEHeaderKey XAuditLogReason →
               sent_Header sent !! k = nonEmpty (tmpl !! k)))
  ∧ (∀ conf sent,
       heap w !! reqHeader c = Some (defaultHeader conf) →
       auditNameFree →
       EvTransport sent ∈ newEvents w w' →
       (Header_has (sent_Header sent) XAuditLogReason ↔ Reason (PopulateMissing r) ≠ "")).
Proof.
  intros Halloc. destruct (Do_world c ctx r w) as [-> _].
  destruct (send_world c ctx r w) as (Hframe & _ & _).
  destruct (send_request c ctx r w) as (Hreason & _ & _).
  split; [apply Hframe, Halloc|]. split.
  - intros tmpl sent Htmpl Hin.
    rewrite (send_sent_header _ _ _ _ _ Hin), Htmpl. cbn [from_option id]. split.
    + intros k v vs Hk. eapply outgoing_carries_template, Hk.
    + intros Hcanon k Hct Haudit. apply outgoing_keeps_template; assumption.
  - intros conf sent Htmpl Hfree Hin. rewrite <- Hreason.
    rewrite (send_sent_header _ _ _ _ _ Hin), Htmpl. cbn [from_option id].
    apply outgoing_audit. exact Hfree.
Qed.

End Properties.

(** * More properties of client.go *)

Section MoreProperties.
Context `{Externals}.

Local Ltac run := unfold mbind, mret, M_bind, M_ret; cbn.
Local Ltac run_in H := unfold mbind, mret, M_bind, M_ret in H; cbn in H.

(** ** [copyHeader] *)

(** X1. The keys of a copy are exactly the canonical forms of the keys of
    the source that have at least one value: an entry without values is
    dropped, and nothing else is added. *)
Theorem copyHeader_map_keys (h : http_Header) (k : string) :
  is_Some (copyHeader_map h !! k)
  ↔ ∃ k' v vs, h !! k' = Some (v :: vs) ∧ CanonicalMIMEHeaderKey k' = k.
Proof.
  unfold copyHeader_map. revert k.
  apply (map_fold_weak_ind
           (λ cp (m : http_Header),
              ∀ k, is_Some (cp !! k)
                   ↔ ∃ k' v vs, m !! k' = Some (v :: vs) ∧ CanonicalMIMEHeaderKey k' = k)).
  - intros k. rewrite lookup_empty. split; [intros [? ?]; discriminate|].
    intros (k' & v & vs & Hk' & _). rewrite lookup_empty in Hk'. discriminate.
  - intros i x m cp Hfresh IH k.
    assert (is_Some (foldl (λ cp v, Header_Add cp i v) cp x !! k)
            ↔ is_Some (cp !! k) ∨ (x ≠ [] ∧ CanonicalMIMEHeaderKey i = k)) as ->.
    { destruct (decide (CanonicalMIMEHeaderKey i = k)) as [<-|Hne].
      - rewrite foldl_Header_Add_same. destruct x as [|v vs].
        + split; [auto | intros [?|[? _]]; [assumption|contradiction]].
        + split; [auto | eauto].
      - rewrite foldl_Header_Add_other by exact Hne. tauto. }
    rewrite IH. split.
    + intros [(k' & v & vs & Hk' & Hc) | (Hx & Hc)].
      * exists k', v, vs. split; [|exact Hc].
        rewrite lookup_insert_ne; [exact Hk'|]. intros ->. congruence.
      * destruct x as [|v vs]; [contradiction|].
        exists i, v, vs. split; [apply lookup_insert_eq | exact Hc].
    + intros (k' & v & vs & Hk' & Hc).
      destruct (decide (i = k')) as [->|Hne].
      * rewrite lookup_insert_eq in Hk'. injection Hk' as ->. right. split; [discriminate | exact Hc].
      * rewrite lookup_insert_ne in Hk' by exact Hne. left. eauto.
Qed.

(** The same through [Get]. *)
Lemma copyHeader_map_Get_canonical (h : http_Header) (key : string) :
  canonicalKeys h →
  Header_Get (copyHeader_map h) key = Header_Get h key.
Proof.
  intros Hcanon. unfold Header_Get.
  rewrite (copyHeader_map_canonical_lookup h Hcanon).
  destruct (h !! CanonicalMIMEHeaderKey key) as [[|v vs]|]; reflexivity.
Qed.

(** X2. Copying a header whose keys are canonical loses nothing a reader of
    the header can see: [Get] answers on the copy as on the source, for
    every key. *)
Theorem copyHeader_map_Get (h : http_Header) (key : string) :
  canonicalKeys h →
  Header_Get (copyHeader_map h) key = Header_Get h key
  ∧ (∀ k, copyHeader_map h !! k = nonEmpty (h !! k)).
Proof.
  intros Hcanon. split.
  - apply copyHeader_map_Get_canonical, Hcanon.
  - apply copyHeader_map_canonical_lookup, Hcanon.
Qed.


(** ** [Do]: what reaches the transport *)

Lemma attachBody_result (p r1 : Request) :
  attachBody p = inl r1 →
  Method r1 = Method p
  ∧ Endpoint r1 = Endpoint p
  ∧ Body r1 = Body p
  ∧ Reason r1 = Reason p
  ∧ Request_ContentType r1 = Request_ContentType p
  ∧ hashedEndpoint r1 = hashedEndpoint p
  ∧ bodyReader r1 = bodyToSend p.
Proof.
  unfold attachBody, bodyToSend, convertStructToIOReader. intros Hr.
  destruct (Body p) as [[b|v]|] eqn:HB, (bodyReader p) as [rd|] eqn:HR;
    try (injection Hr as <-; cbn; rewrite ?HB, ?HR; repeat split; reflexivity).
  destruct (negb _); [discriminate|].
  destruct (json_Marshal v); [|discriminate].
  injection Hr as <-. cbn. rewrite ?HB, ?HR. repeat split; reflexivity.
Qed.

Lemma outgoingHeader_request c r req w :
  fst (outgoingHeader c r req w)
  = {| Req_ctx := Req_ctx req; Req_Method := Req_Method req; Req_URL := Req_URL req;
       Req_Body := Req_Body req; Req_Header := length (heap w) |}.
Proof.
  unfold outgoingHeader, copyHeader, update, load, store, alloc. run.
  destruct (negb _); reflexivity.
Qed.

(** One run of [send], event by event. *)
Lemma send_run c ctx r w :
  let p := PopulateMissing r in
  let w' := snd (send c ctx r w) in
  (w' = w ∧ ∃ err, fst (fst (send c ctx r w)) = Returned err)
  ∨ (length (heap w') = length (heap w) + 2)%nat
    ∧ (∃ res, fst (fst (send c ctx r w)) = Transacted res)
    ∧ (newEvents w w' = [EvBucket (hashedEndpoint p); EvTransactionBegin; EvTransactionEnd]
       ∨ newEvents w w' =
           [EvBucket (hashedEndpoint p); EvTransactionBegin;
            EvTransport (requestSent c (default ∅ (heap w !! reqHeader c)) p);
            EvTransactionEnd]).
Proof.
  destruct (send c ctx r w) as [[prog r'] w'] eqn:Hsend. cbn.
  unfold send, newEvents in *.
  destruct (attachBody _) as [r1|err] eqn:Hattach; run_in Hsend;
    [|injection Hsend as <- <- <-; left; eauto].
  apply attachBody_result in Hattach.
  destruct Hattach as (Hmethod & Hendpoint & _ & Hreason & Htype & Hkey & Hreader).
  unfold http_NewRequestWithContext in Hsend.
  destruct (NewRequest_check _ _ _) as [err|]; run_in Hsend;
    [injection Hsend as <- <- <-; left; eauto|].
  match type of Hsend with context [outgoingHeader c r1 ?req ?w1] =>
    pose proof (outgoingHeader_run c r1 req w1) as Hout;
    pose proof (outgoingHeader_request c r1 req w1) as Hreq;
    destruct (outgoingHeader c r1 req w1) as [req' w2] end.
  unfold allocated in Hout. cbn in Hout, Hreq. rewrite length_app in Hout. cbn in Hout.
  destruct Hout as (Haddr & Hmap & Hframe & Hlen & Htrace & Henv); [lia|].
  unfold Bucket, record, outside in Hsend. run_in Hsend.
  destruct (mgr_bucket _ _ _) as [bucket e].
  match type of Hsend with context [Transaction bucket ctx _ ?w3] =>
    pose proof (Transaction_world bucket ctx c req' w3) as [Hheap Hev];
    rewrite (sending_heap req' w3 w2 eq_refl) in Hev;
    destruct (Transaction bucket ctx (roundTrip c req') w3) as [res w4] end.
  injection Hsend as <- <- <-. cbn in Hheap, Hev.
  right. split; [rewrite Hheap; lia|]. split; [eauto|].
  assert (fst (sending req' w2) = requestSent c (default ∅ (heap w !! reqHeader c)) (PopulateMissing r))
    as Hsent.
  { unfold sending, load, requestSent. run. rewrite Hmap. subst req'. cbn.
    rewrite Hmethod, Hendpoint, Hreader. f_equal.
    unfold outgoing. rewrite Hreason, Htype.
    destruct (decide (reqHeader c < length (heap w))%nat).
    - rewrite lookup_app_l by lia. reflexivity.
    - destruct (decide (reqHeader c = length (heap w))) as [->|].
      + rewrite lookup_snoc_end, (lookup_ge_None_2 (heap w)) by lia. reflexivity.
      + rewrite !lookup_ge_None_2; [reflexivity | lia | rewrite length_app; cbn; lia]. }
  rewrite Hsent, Htrace, Hkey in Hev.
  destruct Hev as [-> | ->]; rewrite <- app_assoc, drop_app_length; [left|right]; reflexivity.
Qed.


Lemma Do_run c ctx r w :
  let p := PopulateMissing r in
  let w' := snd (Do c ctx r w) in
  (w' = w ∧ ∃ err, fst (fst (Do c ctx r w)) = Returns (None, None, Some err))
  ∨ (length (heap w') = length (heap w) + 2)%nat
    ∧ (newEvents w w' = [EvBucket (hashedEndpoint p); EvTransactionBegin; EvTransactionEnd]
       ∨ newEvents w w' =
           [EvBucket (hashedEndpoint p); EvTransactionBegin;
            EvTransport (requestSent c (default ∅ (heap w !! reqHeader c)) p);
            EvTransactionEnd]).
Proof.
  cbn zeta. destruct (Do_world c ctx r w) as [-> _].
  destruct (send_run c ctx r w) as [[Hw [err Herr]] | (Hlen & _ & Hev)]; [left|right; auto].
  split; [exact Hw|]. exists err. rewrite Do_unfold.
  destruct (send c ctx r w) as [[prog r'] w1]. cbn in Herr. subst prog. reflexivity.
Qed.

(** X3. A call of [Do] calls the transport at most once, and only inside
    one transaction on the bucket of the finalised request's key. The
    request it hands over has the method of the request, the client's URL
    followed by the endpoint, the header computed from a copy of the
    template, and for body the reader already attached, else the body itself
    when it is a reader, else the marshalled body. *)
Theorem Do_calls_transport_at_most_once (c : Client) (ctx : Ctx) (r : Request) (w : World) :
  let p := PopulateMissing r in
  let evs := newEvents w (snd (Do c ctx r w)) in
  evs = []
  ∨ evs = [EvBucket (hashedEndpoint p); EvTransactionBegin; EvTransactionEnd]
  ∨ evs = [EvBucket (hashedEndpoint p); EvTransactionBegin;
           EvTransport (requestSent c (default ∅ (heap w !! reqHeader c)) p);
           EvTransactionEnd].
Proof.
  cbn zeta. destruct (Do_run c ctx r w) as [[-> _] | (_ & [Hev | Hev])]; auto.
  left. apply drop_all.
Qed.

Lemma Do_transport_event c ctx r w sent :
  EvTransport sent ∈ newEvents w (snd (Do c ctx r w)) →
  sent = requestSent c (default ∅ (heap w !! reqHeader c)) (PopulateMissing r).
Proof.
  intros Hin. destruct (Do_run c ctx r w) as [[Hw _] | (_ & [Hev | Hev])].
  - rewrite Hw in Hin. unfold newEvents in Hin. rewrite drop_all in Hin.
    apply elem_of_nil in Hin. contradiction.
  - rewrite Hev, !elem_of_cons in Hin. destruct Hin as [?|[?|[?|Hin]]]; try discriminate.
    apply elem_of_nil in Hin. contradiction.
  - rewrite Hev, !elem_of_cons in Hin.
    destruct Hin as [?|[?|[Hin|[?|Hin]]]]; try discriminate;
      [injection Hin as ->; reflexivity | apply elem_of_nil in Hin; contradiction].
Qed.

Lemma defaultHeader_canonical (conf : Config) : canonicalKeys (defaultHeader conf).
Proof.
  intros k vs Hk. destruct (defaultHeader_keys conf k vs Hk) as [-> | [-> | ->]]; reflexivity.
Qed.

Lemma Header_Get_Set_same (h : http_Header) (key value : string) :
  Header_Get (Header_Set h key value) key = value.
Proof. unfold Header_Get, Header_Set. rewrite lookup_insert_eq. reflexivity. Qed.

Lemma Header_Get_Set_other (h : http_Header) (key key' value : string) :
  CanonicalMIMEHeaderKey key ≠ CanonicalMIMEHeaderKey key' →
  Header_Get (Header_Set h key value) key' = Header_Get h key'.
Proof. intros Hne. unfold Header_Get, Header_Set. rewrite lookup_insert_ne by exact Hne. reflexivity. Qed.

Lemma Header_Get_Add_other (h : http_Header) (key key' value : string) :
  CanonicalMIMEHeaderKey key ≠ CanonicalMIMEHeaderKey key' →
  Header_Get (Header_Add h key value) key' = Header_Get h key'.
Proof. intros Hne. unfold Header_Get, Header_Add. rewrite lookup_insert_ne by exact Hne. reflexivity. Qed.

(** X4. For a client whose template is the one [NewClient] builds from
    [conf], every request that reaches the transport carries the bot token
    as Authorization, the formatted user agent, Accept-Encoding gzip, the
    content type of the finalised request, and the request's reason as audit
    header (none when the reason is empty); the name of the audit header is
    assumed to be none of the other four. *)
Theorem Do_sends_required_headers
    (c : Client) (ctx : Ctx) (r : Request) (w : World) (conf : Config) (sent : SentRequest) :
  heap w !! reqHeader c = Some (defaultHeader conf) →
  auditNameFree →
  EvTransport sent ∈ newEvents w (snd (Do c ctx r w)) →
  Header_Get (sent_Header sent) "Authorization" = BotToken conf
  ∧ Header_Get (sent_Header sent) "User-Agent"
    = UserAgentFormat (UserAgentSourceURL conf) (UserAgentVersion conf) (UserAgentExtra conf)
  ∧ Header_Get (sent_Header sent) "Accept-Encoding" = "gzip"
  ∧ Header_Get (sent_Header sent) ContentType = Request_ContentType (PopulateMissing r)
  ∧ Header_Get (sent_Header sent) XAuditLogReason = Reason (PopulateMissing r).
Proof.
  intros Htmpl Hfree Hin. apply Do_transport_event in Hin. subst sent.
  rewrite Htmpl. cbn [requestSent sent_Header from_option id].
  pose proof (copy_of_defaultHeader_without_audit conf Hfree) as Haudit.
  unfold auditNameFree in Hfree. rewrite !not_elem_of_cons in Hfree.
  destruct Hfree as (Ha & Hu & He & Hct & _).
  set (p := PopulateMissing r).
  assert (∀ key, key ∈ ["Authorization"; "User-Agent"; "Accept-Encoding"] →
            Header_Get (outgoing (defaultHeader conf) p) key
            = Header_Get (defaultHeader conf) key) as Hkeep.
  { intros key Hkey. unfold outgoing.
    assert (CanonicalMIMEHeaderKey XAuditLogReason ≠ CanonicalMIMEHeaderKey key
            ∧ CanonicalMIMEHeaderKey ContentType ≠ CanonicalMIMEHeaderKey key) as [Hx Hc].
    { rewrite !elem_of_cons in Hkey.
      destruct Hkey as [-> | [-> | [-> | Hkey]]];
        [| | |apply elem_of_nil in Hkey; contradiction]; split; try exact Ha; try exact Hu;
        try exact He; discriminate. }
    destruct (negb _).
    - rewrite Header_Get_Add_other, Header_Get_Set_other by assumption.
      apply copyHeader_map_Get_canonical, defaultHeader_canonical.
    - rewrite Header_Get_Set_other by assumption.
      apply copyHeader_map_Get_canonical, defaultHeader_canonical. }
  repeat split.
  - rewrite Hkeep by (rewrite !elem_of_cons; auto). reflexivity.
  - rewrite Hkeep by (rewrite !elem_of_cons; auto). reflexivity.
  - rewrite Hkeep by (rewrite !elem_of_cons; auto). reflexivity.
  - unfold outgoing. destruct (negb _).
    + rewrite Header_Get_Add_other by exact Hct. apply Header_Get_Set_same.
    + apply Header_Get_Set_same.
  - unfold outgoing. destruct (String.eqb_spec (Reason p) "") as [Hr|Hr]; cbn [negb].
    + rewrite Hr. unfold Header_Get, Header_Set.
      rewrite lookup_insert_ne by (intros Heq; apply Hct; rewrite <- Heq; reflexivity).
      rewrite Haudit. reflexivity.
    + unfold Header_Get, Header_Add, Header_Set. rewrite lookup_insert_eq.
      rewrite lookup_insert_ne by (intros Heq; apply Hct; rewrite <- Heq; reflexivity).
      rewrite Haudit. reflexivity.
Qed.

(** The template read once the request's own map is allocated. *)
Lemma template_after_alloc (hs : list http_Header) (l : loc) :
  default ∅ ((hs ++ [∅]) !! l) = default (∅ : http_Header) (hs !! l).
Proof.
  destruct (decide (l < length hs)%nat).
  - rewrite lookup_app_l by lia. reflexivity.
  - destruct (decide (l = length hs)) as [->|].
    + rewrite lookup_snoc_end, (lookup_ge_None_2 hs) by lia. reflexivity.
    + rewrite !lookup_ge_None_2; [reflexivity | lia | rewrite length_app; cbn; lia].
Qed.

(** The last two maps of a heap, by address. *)
Lemma lookup_last_two {A} (l : list A) (a b : A) :
  (l ++ [a; b]) !! length l = Some a ∧ (l ++ [a; b]) !! S (length l) = Some b.
Proof.
  split.
  - rewrite lookup_app_r, Nat.sub_diag by lia. reflexivity.
  - rewrite lookup_app_r by lia. replace (S (length l) - length l)%nat with 1%nat by lia.
    reflexivity.
Qed.

Lemma insert_last_two {A} (l : list A) (a b x : A) :
  <[length l := x]> (l ++ [a; b]) = l ++ [x; b]
  ∧ <[S (length l) := x]> (l ++ [a; b]) = l ++ [a; x].
Proof.
  split.
  - rewrite insert_app_r_alt, Nat.sub_diag by lia. reflexivity.
  - rewrite insert_app_r_alt by lia. replace (S (length l) - length l)%nat with 1%nat by lia.
    reflexivity.
Qed.

(** Lines 250-258 on a request whose own map is the one allocated last and
    is still empty. *)
Lemma outgoingHeader_after_alloc
    (c : Client) (p : Request) (req : http_Request)
    (hs : list http_Header) (tr : list Event) (e : E) :
  Req_Header req = length hs →
  outgoingHeader c p req {| heap := hs ++ [∅]; trace := tr; env := e |}
  = ({| Req_ctx := Req_ctx req; Req_Method := Req_Method req; Req_URL := Req_URL req;
        Req_Body := Req_Body req; Req_Header := S (length hs) |},
     {| heap := hs ++ [∅; outgoing (default ∅ (hs !! reqHeader c)) p];
        trace := tr; env := e |}).
Proof.
  intros Hreq.
  unfold outgoingHeader, copyHeader, update, load, store, alloc, outgoing.
  rewrite Hreq.
  destruct (negb (String.eqb (Reason p) "")); run;
    rewrite template_after_alloc, !length_app; cbn [length];
    replace (length hs + 1)%nat with (S (length hs)) by lia;
    rewrite <- !app_assoc; cbn [app];
    rewrite (proj2 (lookup_last_two hs _ _)); cbn [from_option id];
    rewrite (proj2 (insert_last_two hs _ _ _)).
  - rewrite (proj2 (lookup_last_two hs _ _)). cbn [from_option id].
    rewrite (proj2 (insert_last_two hs _ _ _)). reflexivity.
  - rewrite (proj1 (lookup_last_two hs _ _)). cbn [from_option id].
    rewrite (proj1 (insert_last_two hs _ _ _)).
    unfold Header_Del. rewrite delete_empty. reflexivity.
Qed.

(** X5. Lines 244-258 of [Do], for a request [http.NewRequestWithContext]
    accepts: they allocate two header maps and write to no map that was
    there before. The first is the new request's own map, which is empty
    and stays so: without a reason the [Del] of line 256 acts on it, and
    finds nothing. The second, at the next address, is the copy of the
    template, which gets the content type and the reason and becomes the
    header of the request. Nothing is sent meanwhile. *)
Theorem Do_builds_two_maps (c : Client) (ctx : Ctx) (p : Request) (w : World) :
  NewRequest_check ctx (Method_String (Method p)) (url c +:+ Endpoint p) = None →
  ∃ req w1,
    http_NewRequestWithContext ctx (Method_String (Method p)) (url c +:+ Endpoint p)
      (bodyReader p) w = (inl req, w1)
    ∧ Req_Header req = length (heap w)
    ∧ outgoingHeader c p req w1
      = ({| Req_ctx := ctx;
            Req_Method := Method_String (Method p);
            Req_URL := url c +:+ Endpoint p;
            Req_Body := bodyReader p;
            Req_Header := S (length (heap w)) |},
         {| heap := heap w ++ [∅; outgoing (default ∅ (heap w !! reqHeader c)) p];
            trace := trace w;
            env := env w |}).
Proof.
  intros Hcheck. unfold http_NewRequestWithContext. rewrite Hcheck.
  unfold alloc. run. eexists _, _. split; [reflexivity|]. split; [reflexivity|].
  apply outgoingHeader_after_alloc. reflexivity.
Qed.


(** ** [Do]: failures before the transaction *)

(** X6. When the structured body of a JSON request cannot be marshalled,
    [Do] returns the marshaller's error as it is and leaves the world as it
    was: no map is allocated, no bucket is asked, the transport is not
    called. *)
Theorem Do_returns_marshal_error
    (c : Client) (ctx : Ctx) (r : Request) (w : World) (v : Value) (err : error) :
  Body (PopulateMissing r) = Some (BodyOther v) →
  bodyReader (PopulateMissing r) = None →
  Request_ContentType (PopulateMissing r) = ContentTypeJSON →
  json_Marshal v = inr err →
  Do c ctx r w = (Returns (None, None, Some err), PopulateMissing r, w).
Proof.
  intros Hbody Hreader Htype Hmarshal. rewrite Do_unfold.
  unfold send, attachBody, convertStructToIOReader.
  rewrite Hbody, Hreader, Htype, String.eqb_refl, Hmarshal. reflexivity.
Qed.

(** X7. When [http.NewRequestWithContext] refuses the method or the URL,
    [Do] returns its error as it is and leaves the world as it was; the
    request keeps the body reader that was chosen for it. *)
Theorem Do_returns_request_error
    (c : Client) (ctx : Ctx) (r r1 : Request) (w : World) (err : error) :
  attachBody (PopulateMissing r) = inl r1 →
  NewRequest_check ctx (Method_String (Method (PopulateMissing r)))
    (url c +:+ Endpoint (PopulateMissing r)) = Some err →
  Do c ctx r w = (Returns (None, None, Some err), r1, w)
  ∧ bodyReader r1 = bodyToSend (PopulateMissing r).
Proof.
  intros Hattach Hcheck. pose proof (attachBody_result _ _ Hattach)
    as (Hmethod & Hendpoint & _ & _ & _ & _ & Hreader).
  split; [|exact Hreader].
  rewrite Do_unfold. unfold send, http_NewRequestWithContext.
  rewrite Hattach, Hmethod, Hendpoint, Hcheck. reflexivity.
Qed.

(** X8. Choosing the body reader is idempotent: on a request that already
    went through lines 228-242, the same lines change nothing, so a second
    dispatch neither marshals the body again nor replaces the reader. *)
Theorem attachBody_idempotent (p r1 : Request) :
  attachBody p = inl r1 → attachBody r1 = inl r1.
Proof.
  unfold attachBody, convertStructToIOReader. intros Hr.
  destruct (Body p) as [[b|v]|] eqn:HB, (bodyReader p) as [rd|] eqn:HR;
    try (injection Hr as <-; cbn; rewrite ?HB, ?HR; reflexivity).
  destruct (negb _); [discriminate|].
  destruct (json_Marshal v); [|discriminate].
  injection Hr as <-. cbn. rewrite HB. reflexivity.
Qed.

(** X15. A structured body of a JSON request reaches the transport
    marshalled: when nothing is attached yet and [json.Marshal] gives
    [jsonParamsBytes], every request handed to the transport has a body
    reader that reads back exactly these bytes, and the request is left with
    that reader attached. *)
Theorem Do_sends_marshalled_body
    (c : Client) (ctx : Ctx) (r : Request) (w : World) (v : Value)
    (jsonParamsBytes : list byte) :
  Body (PopulateMissing r) = Some (BodyOther v) →
  bodyReader (PopulateMissing r) = None →
  Request_ContentType (PopulateMissing r) = ContentTypeJSON →
  json_Marshal v = inl jsonParamsBytes →
  (∀ sent, EvTransport sent ∈ newEvents w (snd (Do c ctx r w)) →
           ∃ rd, sent_Body sent = Some rd ∧ ioutil_ReadAll rd = inl jsonParamsBytes)
  ∧ bodyReader (snd (fst (Do c ctx r w))) = Some (bytes_Reader jsonParamsBytes).
Proof.
  intros Hbody Hreader Htype Hmarshal. split.
  - intros sent Hin. apply Do_transport_event in Hin. subst sent.
    exists (bytes_Reader jsonParamsBytes). split; [|reflexivity].
    cbn [requestSent sent_Body]. unfold bodyToSend. rewrite Hreader, Hbody, Hmarshal. reflexivity.
  - destruct (Do_world c ctx r w) as [_ ->]. unfold send, attachBody, convertStructToIOReader.
    rewrite Hbody, Hreader, Htype, String.eqb_refl, Hmarshal. cbn [negb].
    unfold http_NewRequestWithContext.
    destruct (NewRequest_check _ _ _) as [err|]; run; [reflexivity|].
    destruct (outgoingHeader _ _ _ _) as [req w2].
    destruct (Bucket _ _ _ _) as [res w3]. reflexivity.
Qed.

(** X16. [Do] changes the request only by finalising it and attaching the
    body reader: method, endpoint, body, reason, content type and bucket key
    are those [PopulateMissing] left, and the body reader is the one chosen
    by lines 228-242, or is untouched when these lines fail. *)
Theorem Do_changes_request_only_by_reader (c : Client) (ctx : Ctx) (r : Request) (w : World) :
  let p := PopulateMissing r in
  let r' := snd (fst (Do c ctx r w)) in
  Method r' = Method p
  ∧ Endpoint r' = Endpoint p
  ∧ Body r' = Body p
  ∧ Reason r' = Reason p
  ∧ Request_ContentType r' = Request_ContentType p
  ∧ hashedEndpoint r' = hashedEndpoint p
  ∧ match attachBody p with
    | inl _ => bodyReader r' = bodyToSend p
    | inr _ => r' = p
    end.
Proof.
  cbn zeta. destruct (Do_world c ctx r w) as [_ ->]. unfold send.
  destruct (attachBody (PopulateMissing r)) as [r1|err] eqn:Hattach;
    [|cbn; repeat split; reflexivity].
  apply attachBody_result in Hattach.
  unfold http_NewRequestWithContext.
  destruct (NewRequest_check _ _ _) as [err|]; run; [tauto|].
  destruct (outgoingHeader _ _ _ _) as [req w2].
  destruct (Bucket _ _ _ _) as [res w3]. cbn. tauto.
Qed.

(** ** [decodeResponseBody] and the transaction callback *)

(** X9. [decodeResponseBody] returns a body with a nil error or a nil body
    with an error, never both or neither; the error is the one of reading
    the body, of the gzip header, or of the gzip data, and a body that
    cannot be read is an error whatever the content encoding. *)
Theorem decodeResponseBody_errors (c : Client) (resp : Response) :
  ((∃ b, decodeResponseBody c resp = (Some b, None))
   ∨ (∃ err, decodeResponseBody c resp = (None, Some err)))
  ∧ (∀ err, ioutil_ReadAll (Resp_Body resp) = inr err →
            decodeResponseBody c resp = (None, Some err))
  ∧ (∀ raw err, ioutil_ReadAll (Resp_Body resp) = inl raw → declaresGzip resp →
                gzip_NewReader raw = inr err →
                decodeResponseBody c resp = (None, Some err))
  ∧ (∀ raw rd err, ioutil_ReadAll (Resp_Body resp) = inl raw → declaresGzip resp →
                   gzip_NewReader raw = inl rd → gzip_ReadFrom rd = inr err →
                   decodeResponseBody c resp = (None, Some err)).
Proof.
  split; [apply decodeResponseBody_shape|].
  unfold declaresGzip, decodeResponseBody. repeat split.
  - intros err ->. reflexivity.
  - intros raw err -> -> ->. reflexivity.
  - intros raw rd err -> -> -> ->. reflexivity.
Qed.


(** ** [NewClient] *)

(** X11. [NewClient] checks in a fixed order and reports the first failure:
    an unsupported API version (the error text holds the version number)
    before an empty token, an empty token before a nil HTTP client. In each
    of these cases the configuration and the world are left as they
    were. *)
Theorem NewClient_first_failure (conf : Config) (w : World) :
  (SupportsDiscordAPIVersion (APIVersion conf) = false →
     NewClient conf w
     = (None,
        Some (errors_New ("Discord API version " +:+ Itoa (APIVersion conf) +:+ " is not supported")),
        conf, w))
  ∧ (SupportsDiscordAPIVersion (APIVersion conf) = true → BotToken conf = "" →
     NewClient conf w
     = (None, Some (errors_New "no Discord Bot Token was provided"), conf, w))
  ∧ (SupportsDiscordAPIVersion (APIVersion conf) = true → BotToken conf ≠ "" →
     HttpClient conf = None →
     NewClient conf w = (None, Some (errors_New "missing http client"), conf, w)).
Proof.
  unfold NewClient. repeat split.
  - intros ->. reflexivity.
  - intros -> ->. reflexivity.
  - intros -> Htoken ->. apply String.eqb_neq in Htoken. rewrite Htoken. reflexivity.
Qed.

(** X12. The default bucket manager is written into the configuration
    before the user-agent check: a configuration with a nil manager and an
    empty user-agent source or version is refused, and yet comes back with
    the default manager installed. The world is left as it was. *)
Theorem NewClient_failure_sets_manager (conf : Config) (w : World) (doer : HttpClientDoer) :
  SupportsDiscordAPIVersion (APIVersion conf) = true →
  BotToken conf ≠ "" →
  HttpClient conf = Some doer →
  Config_RESTBucketManager conf = None →
  UserAgentSourceURL conf = "" ∨ UserAgentVersion conf = "" →
  ∃ text,
    NewClient conf w = (None, Some (errors_New text), Config_with_manager conf NewManager, w).
Proof.
  intros Hv Htoken Hdoer Hmgr Hua. unfold NewClient.
  apply String.eqb_neq in Htoken. rewrite Hv, Htoken, Hdoer, Hmgr. cbn.
  destruct Hua as [-> | ->]; cbn; [eauto|].
  rewrite orb_true_r. eauto.
Qed.

(** X13. For a configuration it accepts, [NewClient] allocates exactly one
    map, the header template, does nothing else to the world, and returns a
    client whose URL is the base URL followed by /v8, whose template is that
    new map, and whose cancelRequestWhenRateLimited flag is false whatever
    the configuration says. *)
Theorem NewClient_builds_client (conf : Config) (w : World) :
  ¬ invalidConfig conf →
  ∃ c conf',
    NewClient conf w
    = (Some c, None, conf',
       {| heap := heap w ++ [defaultHeader conf]; trace := trace w; env := env w |})
    ∧ url c = "https://discord.com/api/v8"
    ∧ reqHeader c = length (heap w)
    ∧ cancelRequestWhenRateLimited c = false
    ∧ HttpClient conf = Some (httpClient c).
Proof.
  intros Hok. unfold invalidConfig in Hok. unfold NewClient.
  destruct (SupportsDiscordAPIVersion (APIVersion conf)) eqn:Hv; [|tauto].
  assert (APIVersion conf = 8) as Hversion.
  { unfold SupportsDiscordAPIVersion in Hv. cbn [supportsLoop] in Hv.
    destruct (Z.eqb_spec 8 (APIVersion conf)); [congruence | discriminate]. }
  destruct (String.eqb_spec (BotToken conf) ""); [tauto|].
  destruct (HttpClient conf) as [doer|] eqn:Hd; [|tauto].
  cbn [negb].
  destruct (Config_RESTBucketManager conf) as [m|] eqn:Hm; cbn;
    (destruct (String.eqb_spec (UserAgentSourceURL conf) ""); [tauto|]);
    (destruct (String.eqb_spec (UserAgentVersion conf) ""); [tauto|]);
    run; rewrite Hversion; eexists _, _; repeat split; reflexivity.
Qed.

(** ** [ErrREST.Error] *)

Lemma append_assoc (s t u : string) : (s +:+ t) +:+ u = s +:+ t +:+ u.
Proof.
  induction s as [|a s IH]; [reflexivity|].
  change (String a ((s +:+ t) +:+ u) = String a (s +:+ t +:+ u)). rewrite IH. reflexivity.
Qed.

Lemma prefix_append (s t : string) : String.prefix s (s +:+ t) = true.
Proof.
  induction s as [|a s IH]; [destruct t; reflexivity|].
  change (String a s +:+ t) with (String a (s +:+ t)). cbn.
  destruct (ascii_dec a a); [exact IH | congruence].
Qed.

Lemma Contains_middle (pre sub post : string) :
  Contains (pre +:+ sub +:+ post) sub = true.
Proof.
  induction pre as [|a pre IH].
  - change ("" +:+ sub +:+ post) with (sub +:+ post).
    pose proof (prefix_append sub post) as Hp.
    destruct (sub +:+ post); cbn -[String.prefix]; rewrite Hp; reflexivity.
  - change (String a pre +:+ sub +:+ post) with (String a (pre +:+ sub +:+ post)).
    cbn -[String.prefix]. rewrite IH. apply orb_true_r.
Qed.

(** X14. The text of an [ErrREST] starts with its message and contains its
    suggestion (the raw body) and its hashed endpoint; an error without
    bucket grouping ends in an empty pair of brackets. *)
Theorem ErrREST_Error_shows_fields (e : ErrREST) :
  String.prefix (Msg e) (ErrREST_Error e) = true
  ∧ Contains (ErrREST_Error e) (Suggestion e) = true
  ∧ Contains (ErrREST_Error e) (HashedEndpoint e) = true
  ∧ (ErrREST_Bucket e = [] →
     ErrREST_Error e
     = Msg e +:+ newline +:+ Suggestion e +:+ newline +:+ HashedEndpoint e +:+ " => []").
Proof.
  unfold ErrREST_Error. repeat split.
  - apply prefix_append.
  - rewrite <- (append_assoc (Msg e) newline). apply Contains_middle.
  - rewrite <- (append_assoc (Suggestion e) newline),
            <- (append_assoc newline), <- (append_assoc (Msg e)).
    apply Contains_middle.
  - intros ->. reflexivity.
Qed.

End MoreProperties.

(** * The client run in the test double *)

#[local] Existing Instances Mock.types Mock.externals.

Example NewClient_mock (canned : list (Response + error)) :
  fst (fst (fst (NewClient Mock.config (Mock.boot canned)))) = Some Mock.client
  ∧ snd (NewClient Mock.config (Mock.boot canned)) = Mock.world canned.
Proof. split; reflexivity. Qed.


(** ** The gzip writer and reader of the test double agree *)

Example gzipStored_hello : Mock.gzipStored (bytes_of_string "hello") = Mock.gzipHello.
Proof. vm_compute. reflexivity. Qed.

Lemma byteZ_byteOf (z : Z) : 0 ≤ z < 256 → Mock.byteZ (Mock.byteOf z) = z.
Proof.
  intros Hz. unfold Mock.byteZ, Mock.byteOf.
  destruct (Byte.of_N (Z.to_N z)) as [y|] eqn:Hy.
  - cbn. apply Byte.to_of_N in Hy. rewrite Hy. lia.
  - apply Byte.of_N_None_iff in Hy. lia.
Qed.

Lemma littleEndian_bytes (n : nat) (v : Z) (rest : list byte) :
  0 ≤ v < 256 ^ Z.of_nat n →
  Mock.littleEndian n (Mock.littleEndianBytes n v ++ rest) = Some (v, rest).
Proof.
  revert v. induction n as [|n IH]; intros v Hv.
  - cbn in *. f_equal. f_equal. lia.
  - rewrite Nat2Z.inj_succ, Z.pow_succ_r in Hv by lia.
    cbn [Mock.littleEndianBytes Mock.littleEndian app].
    rewrite IH by (split; [apply Z.div_pos; lia | apply Z.div_lt_upper_bound; lia]).
    rewrite byteZ_byteOf by (apply Z.mod_pos_bound; lia).
    f_equal. f_equal. rewrite (Z.div_mod v 256) at 3 by lia. lia.
Qed.

Lemma lxor_below (n a b : Z) :
  0 < n → 0 ≤ a < 2 ^ n → 0 ≤ b < 2 ^ n → 0 ≤ Z.lxor a b < 2 ^ n.
Proof.
  intros Hn Ha Hb.
  assert (0 ≤ Z.lxor a b) as Hpos by (apply Z.lxor_nonneg; lia).
  split; [exact Hpos|].
  destruct (Z.eq_dec (Z.lxor a b) 0) as [->|Hne]; [apply Z.pow_pos_nonneg; lia|].
  apply Z.log2_lt_pow2; [lia|].
  eapply Z.le_lt_trans; [apply Z.log2_lxor; lia|].
  apply Z.max_lub_lt.
  - destruct (Z.eq_dec a 0) as [->|]; [cbn; lia | apply Z.log2_lt_pow2; lia].
  - destruct (Z.eq_dec b 0) as [->|]; [cbn; lia | apply Z.log2_lt_pow2; lia].
Qed.

Lemma crcStep_below (crc : Z) : 0 ≤ crc < 2 ^ 32 → 0 ≤ Mock.crcStep crc < 2 ^ 32.
Proof.
  intros Hc. unfold Mock.crcStep. apply lxor_below; [lia| |destruct (Z.testbit crc 0); lia].
  rewrite Z.shiftr_div_pow2 by lia. change (2 ^ 1) with 2.
  split; [apply Z.div_pos; lia | apply Z.div_lt_upper_bound; lia].
Qed.

Lemma byteZ_below (b : byte) : 0 ≤ Mock.byteZ b < 2 ^ 32.
Proof.
  unfold Mock.byteZ. pose proof (Byte.to_N_bounded b). lia.
Qed.

Lemma crcByte_below (crc : Z) (b : byte) : 0 ≤ crc < 2 ^ 32 → 0 ≤ Mock.crcByte crc b < 2 ^ 32.
Proof.
  intros Hc. unfold Mock.crcByte.
  assert (0 ≤ Z.lxor crc (Z.of_N (Byte.to_N b)) < 2 ^ 32) as Hx
    by (apply lxor_below; [lia | exact Hc | apply byteZ_below]).
  cbn [Nat.iter]. do 8 apply crcStep_below. exact Hx.
Qed.

Lemma crc32_below (data : list byte) : 0 ≤ Mock.crc32 data < 2 ^ 32.
Proof.
  unfold Mock.crc32. apply lxor_below; [lia| |lia].
  assert (∀ acc, 0 ≤ acc < 2 ^ 32 → 0 ≤ foldl Mock.crcByte acc data < 2 ^ 32) as Hfold.
  { induction data as [|b data IH]; intros acc Hacc; cbn [foldl]; [exact Hacc|].
    apply IH, crcByte_below, Hacc. }
  apply Hfold. lia.
Qed.

Lemma inflateStored_blocks (f1 f2 : nat) (b rest : list byte) :
  (length b < f1)%nat → (length b < f2)%nat →
  Mock.inflateStored f2 (Mock.storedBlocks f1 b ++ rest) = Some (b, rest).
Proof.
  revert f2 b. induction f1 as [|f1 IH]; intros f2 b Hf1 Hf2; [lia|].
  destruct f2 as [|f2]; [lia|].
  cbn [Mock.storedBlocks Mock.inflateStored]. unfold Mock.maxStored.
  destruct (Z.leb_spec (Z.of_nat (length b)) 65535) as [Hlen|Hlen].
  - cbn [app]. change (Z.land (Mock.byteZ x01) 6 =? 0) with true. cbn [negb].
    rewrite <- !app_assoc, littleEndian_bytes by (cbn; lia).
    rewrite littleEndian_bytes by (cbn; lia).
    replace (Z.of_nat (length b) + (65535 - Z.of_nat (length b)) =? 65535) with true
      by (symmetry; apply Z.eqb_eq; lia).
    cbn [negb]. rewrite Nat2Z.id.
    replace (length (b ++ rest) <? length b)%nat with false
      by (symmetry; apply Nat.ltb_ge; rewrite length_app; lia).
    change (Z.testbit (Mock.byteZ x01) 0) with true. cbn iota.
    rewrite take_app_length, drop_app_length. reflexivity.
  - cbn [app]. change (Z.land (Mock.byteZ x00) 6 =? 0) with true. cbn [negb].
    rewrite <- !app_assoc, littleEndian_bytes by (cbn; lia).
    rewrite littleEndian_bytes by (cbn; lia).
    change (65535 + 0 =? 65535) with true. cbn [negb].
    assert (length (take (Z.to_nat 65535) b) = Z.to_nat 65535) as Htake
      by (rewrite length_take; lia).
    replace (length (take (Z.to_nat 65535) b
                       ++ Mock.storedBlocks f1 (drop (Z.to_nat 65535) b) ++ rest)
               <? Z.to_nat 65535)%nat
      with false by (symmetry; apply Nat.ltb_ge; rewrite length_app; lia).
    change (Z.testbit (Mock.byteZ x00) 0) with false. cbn iota.
    rewrite take_app_length' by (symmetry; exact Htake).
    rewrite drop_app_length' by (symmetry; exact Htake).
    rewrite IH by (rewrite length_drop; lia).
    rewrite take_drop. reflexivity.
Qed.

Lemma storedBlocks_length (f : nat) (b : list byte) :
  (length b < f)%nat → (length b ≤ length (Mock.storedBlocks f b))%nat.
Proof.
  revert b. induction f as [|f IH]; intros b Hf; [lia|].
  cbn [Mock.storedBlocks]. unfold Mock.maxStored.
  destruct (Z.leb_spec (Z.of_nat (length b)) 65535) as [Hlen|Hlen].
  - cbn [length]. rewrite !length_app. lia.
  - cbn [length]. rewrite !length_app, length_take.
    specialize (IH (drop (Z.to_nat 65535) b)). rewrite length_drop in IH. lia.
Qed.

Lemma gzipOf_gzipStored (b : list byte) : gzipOf (Mock.gzipStored b) b.
Proof.
  exists (Mock.storedBlocks (S (length b)) b
            ++ Mock.littleEndianBytes 4 (Mock.crc32 b)
            ++ Mock.littleEndianBytes 4 (Z.of_nat (length b) mod 2 ^ 32)).
  split; [reflexivity|].
  change (gzip_ReadFrom ?d) with (Mock.readMember d). unfold Mock.readMember.
  pose proof (storedBlocks_length (S (length b)) b) as Hlen.
  rewrite inflateStored_blocks by (try rewrite !length_app; lia).
  rewrite littleEndian_bytes by (pose proof (crc32_below b); cbn; lia).
  rewrite <- (app_nil_r (Mock.littleEndianBytes 4 _)).
  rewrite littleEndian_bytes by (cbn; apply Z.mod_pos_bound; lia).
  rewrite !Z.eqb_refl. reflexivity.
Qed.

(** In the test double, every byte sequence survives the gzip round trip
    through [decodeResponseBody]. *)
Lemma decodeResponseBody_gzipStored (b : list byte) :
  decodeResponseBody Mock.client (Mock.answer 200 ["gzip"] (Mock.gzipStored b)) = (Some b, None).
Proof.
  destruct (gzipOf_gzipStored b) as (r & Hnew & Hread).
  unfold decodeResponseBody.
  change (ioutil_ReadAll (Resp_Body (Mock.answer 200 ["gzip"] (Mock.gzipStored b))))
    with (@inl (list byte) error (Mock.gzipStored b)).
  change (Header_Get (Resp_Header (Mock.answer 200 ["gzip"] (Mock.gzipStored b))) ContentEncoding)
    with "gzip".
  cbn [String.eqb Ascii.eqb Bool.eqb GZIPCompression].
  rewrite Hnew, Hread. reflexivity.
Qed.

Lemma mock_config_valid : ¬ invalidConfig Mock.config.
Proof. intros [?|[?|[?|[?|?]]]]; discriminate. Qed.

Lemma mock_auditNameFree : auditNameFree.
Proof.
  unfold auditNameFree. rewrite !not_elem_of_cons.
  repeat split; try (vm_compute; discriminate). apply not_elem_of_nil.
Qed.

(** The default manager is installed for the mock configuration, whose
    manager is nil. *)
Lemma NewClient_default_manager_witness :
  Config_RESTBucketManager Mock.config = None
  ∧ ∃ c conf' w',
      NewClient Mock.config (Mock.boot []) = (Some c, None, conf', w')
      ∧ buckets c = Mock.manager
      ∧ Config_RESTBucketManager conf' = Some Mock.manager.
Proof.
  split; [reflexivity|].
  exact (NewClient_default_manager Mock.config (Mock.boot []) eq_refl mock_config_valid).
Defined.

(** A gzip member that wraps hello decodes to hello; the five bytes of
    hello without a content encoding pass through. *)
Lemma decodeResponseBody_hello_witness :
  decodeResponseBody Mock.client (Mock.answer 200 ["gzip"] Mock.gzipHello)
    = (Some (bytes_of_string "hello"), None)
  ∧ decodeResponseBody Mock.client (Mock.answer 200 [] (bytes_of_string "hello"))
    = (Some (bytes_of_string "hello"), None).
Proof.
  pose proof (decodeResponseBody_gzip_or_identity
                Mock.client (Mock.answer 200 ["gzip"] Mock.gzipHello) Mock.gzipHello eq_refl)
    as [Hgzip _].
  pose proof (decodeResponseBody_gzip_or_identity
                Mock.client (Mock.answer 200 [] (bytes_of_string "hello"))
                (bytes_of_string "hello") eq_refl)
    as [_ Hplain].
  split.
  - apply (Hgzip (bytes_of_string "hello")).
    + vm_compute. reflexivity.
    + exists (drop 10 Mock.gzipHello). split; vm_compute; reflexivity.
  - apply Hplain. vm_compute. discriminate.
Defined.

(** C1, as stated, fails: the 403 answer with the Missing Access body makes
    [Do] return an error whose message does not embed 403. *)
Lemma Do_message_may_omit_status :
  ∃ resp r' w' e,
    send Mock.client Mock.Live (Mock.request None "" "")
         (Mock.world [inl (Mock.answer 403 [] missingAccess)])
      = (Transacted (Some resp, Some missingAccess, None), r', w')
    ∧ StatusCode resp = 403
    ∧ Do Mock.client Mock.Live (Mock.request None "" "")
         (Mock.world [inl (Mock.answer 403 [] missingAccess)])
      = (Returns (None, None, Some (ErrREST_ptr e)), r', w')
    ∧ Msg e = "Missing Access"
    ∧ Contains (Msg e) (Itoa 403) = false.
Proof.
  eexists _, _, _, _. split; [|split; [|split; [|split]]].
  - vm_compute. reflexivity.
  - reflexivity.
  - vm_compute. reflexivity.
  - reflexivity.
  - reflexivity.
Qed.

(** A 304 answer comes back as it is; a 404 answer with an empty body comes
    back as an error whose message embeds 404. *)
Lemma Do_classifies_status_witness :
  (∃ resp r' w',
     send Mock.client Mock.Live (Mock.request None "" "")
          (Mock.world [inl (Mock.answer 304 [] [])])
       = (Transacted (Some resp, Some [], None), r', w')
     ∧ StatusCode resp = 304
     ∧ Do Mock.client Mock.Live (Mock.request None "" "")
          (Mock.world [inl (Mock.answer 304 [] [])])
       = (Returns (Some resp, Some [], None), r', w'))
  ∧ (∃ resp r' w' e,
       send Mock.client Mock.Live (Mock.request None "" "")
            (Mock.world [inl (Mock.answer 404 [] [])])
         = (Transacted (Some resp, Some [], None), r', w')
       ∧ StatusCode resp = 404
       ∧ Do Mock.client Mock.Live (Mock.request None "" "")
            (Mock.world [inl (Mock.answer 404 [] [])])
         = (Returns (None, None, Some (ErrREST_ptr e)), r', w')
       ∧ Contains (Msg e) (Itoa 404) = true
       ∧ HashedEndpoint e = "POST:/channels/1/messages").
Proof.
  split.
  - set (out := send Mock.client Mock.Live (Mock.request None "" "")
                  (Mock.world [inl (Mock.answer 304 [] [])])).
    assert (send Mock.client Mock.Live (Mock.request None "" "")
              (Mock.world [inl (Mock.answer 304 [] [])]) = out) as Hsend by reflexivity.
    vm_compute in out. subst out.
    pose proof (proj1 (Do_classifies_status _ _ _ _ _ _ _ _ Hsend) eq_refl) as Hdo.
    eexists _, _, _. split; [exact Hsend|]. split; [reflexivity | exact Hdo].
  - set (out := send Mock.client Mock.Live (Mock.request None "" "")
                  (Mock.world [inl (Mock.answer 404 [] [])])).
    assert (send Mock.client Mock.Live (Mock.request None "" "")
              (Mock.world [inl (Mock.answer 404 [] [])]) = out) as Hsend by reflexivity.
    vm_compute in out. subst out.
    pose proof (proj2 (Do_classifies_status _ _ _ _ _ _ _ _ Hsend) eq_refl)
      as (e & Hdo & _ & Hmsg & Hemb & _ & _ & Hkey).
    eexists _, _, _, e. split; [exact Hsend|]. split; [reflexivity|]. split; [exact Hdo|].
    split; [rewrite Hmsg; exact Hemb | rewrite Hkey; reflexivity].
Defined.


(** C7, as stated, fails: a request with a structured body and a content
    type other than JSON, whose body reader is already attached, goes to the
    transport and comes back with the response. *)
Lemma Do_sends_redispatched_body :
  (∃ v, Body Mock.redispatched = Some (BodyOther v)
        ∧ Body (PopulateMissing Mock.redispatched) = Some (BodyOther v))
  ∧ Request_ContentType Mock.redispatched ≠ ContentTypeJSON
  ∧ Request_ContentType (PopulateMissing Mock.redispatched) ≠ ContentTypeJSON
  ∧ (∃ sent, EvTransport sent
               ∈ newEvents (Mock.world [inl (Mock.answer 200 [] [])])
                   (snd (Do Mock.client Mock.Live Mock.redispatched
                            (Mock.world [inl (Mock.answer 200 [] [])]))))
  ∧ (∃ resp body, fst (fst (Do Mock.client Mock.Live Mock.redispatched
                               (Mock.world [inl (Mock.answer 200 [] [])])))
                  = Returns (Some resp, body, None)).
Proof.
  split; [eexists; split; reflexivity|]. split; [discriminate|]. split; [discriminate|]. split.
  - eexists. vm_compute. do 2 apply list_elem_of_further. apply list_elem_of_here.
  - eexists _, _. vm_compute. reflexivity.
Qed.

(** A fresh request with a structured body and the content type text/plain
    is refused before anything is sent. *)
Lemma Do_refuses_unencodable_body_witness :
  Body (PopulateMissing (Mock.request (Some (BodyOther (Some []))) "text/plain" ""))
    = Some (BodyOther (Some []))
  ∧ Do Mock.client Mock.Live (Mock.request (Some (BodyOther (Some []))) "text/plain" "")
       (Mock.world [inl (Mock.answer 200 [] [])])
    = (Returns (None, None, Some unknownBodyError),
       PopulateMissing (Mock.request (Some (BodyOther (Some []))) "text/plain" ""),
       Mock.world [inl (Mock.answer 200 [] [])])
  ∧ trace (snd (Do Mock.client Mock.Live
                   (Mock.request (Some (BodyOther (Some []))) "text/plain" "")
                   (Mock.world [inl (Mock.answer 200 [] [])]))) = [].
Proof.
  assert (Request_ContentType
            (PopulateMissing (Mock.request (Some (BodyOther (Some []))) "text/plain" ""))
          ≠ ContentTypeJSON) as Htype by discriminate.
  pose proof (Do_refuses_unencodable_body Mock.client Mock.Live
                (Mock.request (Some (BodyOther (Some []))) "text/plain" "")
                (Mock.world [inl (Mock.answer 200 [] [])]) (Some [])
                eq_refl eq_refl Htype) as [Hdo Hev].
  split; [reflexivity|]. split; [exact Hdo|]. rewrite Hdo. reflexivity.
Defined.

(** A request with a reason reaches the transport with the audit header and
    with the fields of the template; the template stays the one [NewClient]
    built. *)
Lemma Do_private_header_copy_witness :
  allocated (reqHeader Mock.client) (Mock.world [inl (Mock.answer 200 [] [])])
  ∧ heap (snd (Do Mock.client Mock.Live (Mock.request None "" "cleanup")
                  (Mock.world [inl (Mock.answer 200 [] [])])))
      !! reqHeader Mock.client = Some (defaultHeader Mock.config)
  ∧ ∃ sent,
      EvTransport sent
        ∈ newEvents (Mock.world [inl (Mock.answer 200 [] [])])
            (snd (Do Mock.client Mock.Live (Mock.request None "" "cleanup")
                     (Mock.world [inl (Mock.answer 200 [] [])])))
      ∧ sent_Header sent !! "Authorization" = Some ["Bot secret"]
      ∧ sent_Header sent !! "Accept-Encoding" = Some ["gzip"]
      ∧ Header_has (sent_Header sent) XAuditLogReason.
Proof.
  assert (allocated (reqHeader Mock.client) (Mock.world [inl (Mock.answer 200 [] [])]))
    as Halloc by (unfold allocated; cbn; lia).
  pose proof (Do_private_header_copy Mock.client Mock.Live (Mock.request None "" "cleanup")
                (Mock.world [inl (Mock.answer 200 [] [])]) Halloc) as (Hframe & Hcopy & Haudit).
  split; [exact Halloc|]. split; [rewrite Hframe; reflexivity|].
  assert (∃ sent, EvTransport sent
            ∈ newEvents (Mock.world [inl (Mock.answer 200 [] [])])
                (snd (Do Mock.client Mock.Live (Mock.request None "" "cleanup")
                         (Mock.world [inl (Mock.answer 200 [] [])])))) as [sent Hin].
  { eexists. vm_compute. do 2 apply list_elem_of_further. apply list_elem_of_here. }
  exists sent. split; [exact Hin|]. split; [|split].
  - rewrite (proj2 (Hcopy (defaultHeader Mock.config) sent eq_refl Hin)
               (defaultHeader_canonical Mock.config) "Authorization");
      [reflexivity | vm_compute; discriminate | vm_compute; discriminate].
  - rewrite (proj2 (Hcopy (defaultHeader Mock.config) sent eq_refl Hin)
               (defaultHeader_canonical Mock.config) "Accept-Encoding");
      [reflexivity | vm_compute; discriminate | vm_compute; discriminate].
  - apply (Haudit Mock.config sent eq_refl mock_auditNameFree Hin).
    vm_compute. discriminate.
Defined.

(** * More runs in the test double *)

(** The copy of the mock client's template answers [Get] as the template
    does, whatever the case of the key asked for. *)
Lemma copyHeader_map_Get_witness :
  canonicalKeys (defaultHeader Mock.config)
  ∧ Header_Get (copyHeader_map (defaultHeader Mock.config)) "accept-encoding" = "gzip".
Proof.
  split; [apply defaultHeader_canonical|].
  rewrite (proj1 (copyHeader_map_Get (defaultHeader Mock.config) "accept-encoding"
                    (defaultHeader_canonical Mock.config))).
  reflexivity.
Defined.

(** A request with a reason reaches the transport with the five headers. *)
Lemma Do_sends_required_headers_witness :
  ∃ sent,
    EvTransport sent
      ∈ newEvents (Mock.world [inl (Mock.answer 200 [] [])])
          (snd (Do Mock.client Mock.Live (Mock.request None "" "cleanup")
                   (Mock.world [inl (Mock.answer 200 [] [])])))
    ∧ Header_Get (sent_Header sent) "Authorization" = "Bot secret"
    ∧ Header_Get (sent_Header sent) "User-Agent"
      = "DiscordBot (https://github.com/Vedza/disgord, v0.27) "
    ∧ Header_Get (sent_Header sent) "Accept-Encoding" = "gzip"
    ∧ Header_Get (sent_Header sent) "Content-Type" = "application/json"
    ∧ Header_Get (sent_Header sent) "X-Audit-Log-Reason" = "cleanup".
Proof.
  assert (∃ sent, EvTransport sent
            ∈ newEvents (Mock.world [inl (Mock.answer 200 [] [])])
                (snd (Do Mock.client Mock.Live (Mock.request None "" "cleanup")
                         (Mock.world [inl (Mock.answer 200 [] [])])))) as [sent Hin].
  { eexists. vm_compute. do 2 apply list_elem_of_further. apply list_elem_of_here. }
  exists sent. split; [exact Hin|].
  exact (Do_sends_required_headers Mock.client Mock.Live (Mock.request None "" "cleanup")
           (Mock.world [inl (Mock.answer 200 [] [])]) Mock.config sent
           eq_refl mock_auditNameFree Hin).
Defined.

(** A body that [json.Marshal] refuses. *)
Lemma Do_returns_marshal_error_witness :
  json_Marshal (None : Value) = inr (errors_New "json: unsupported type")
  ∧ Do Mock.client Mock.Live (Mock.request (Some (BodyOther None)) "" "")
       (Mock.world [inl (Mock.answer 200 [] [])])
    = (Returns (None, None, Some (errors_New "json: unsupported type")),
       PopulateMissing (Mock.request (Some (BodyOther None)) "" ""),
       Mock.world [inl (Mock.answer 200 [] [])]).
Proof.
  split; [reflexivity|].
  exact (Do_returns_marshal_error Mock.client Mock.Live
           (Mock.request (Some (BodyOther None)) "" "")
           (Mock.world [inl (Mock.answer 200 [] [])]) None _
           eq_refl eq_refl eq_refl eq_refl).
Defined.

(** An endpoint with a line feed is refused when the request is built. *)
Lemma Do_returns_request_error_witness :
  Do (H0 := MockStrict.externals) Mock.client Mock.Live MockStrict.brokenPath
     (Mock.world [inl (Mock.answer 200 [] [])])
  = (Returns (None, None, Some (errors_New "net/url: invalid control character in URL")),
     PopulateMissing (Externals := MockStrict.externals) MockStrict.brokenPath,
     Mock.world [inl (Mock.answer 200 [] [])]).
Proof.
  exact (proj1 (Do_returns_request_error (H0 := MockStrict.externals)
                  Mock.client Mock.Live MockStrict.brokenPath _
                  (Mock.world [inl (Mock.answer 200 [] [])]) _ eq_refl eq_refl)).
Defined.

(** A marshalled body is marshalled once. *)
Lemma attachBody_idempotent_witness :
  ∃ r1,
    attachBody (PopulateMissing
                  (Mock.request (Some (BodyOther (Some (bytes_of_string "{}")))) "" "")) = inl r1
    ∧ bodyReader r1 = Some (bytes_Reader (bytes_of_string "{}"))
    ∧ attachBody r1 = inl r1.
Proof.
  eexists. split; [reflexivity|]. split; [reflexivity|].
  apply (attachBody_idempotent
           (PopulateMissing
              (Mock.request (Some (BodyOther (H := Mock.types) (Some (bytes_of_string "{}"))))
                 "" ""))).
  reflexivity.
Defined.

(** The mock configuration without a user-agent version. *)
Lemma NewClient_failure_sets_manager_witness :
  ∃ text conf',
    NewClient
      {| APIVersion := 8; BotToken := "Bot secret"; HttpClient := Some Mock.transport;
         CancelRequestWhenRateLimited := true; Config_RESTBucketManager := None;
         UserAgentVersion := ""; UserAgentSourceURL := "https://github.com/Vedza/disgord";
         UserAgentExtra := "" |}
      (Mock.boot [])
    = (None, Some (errors_New text), conf', Mock.boot [])
    ∧ Config_RESTBucketManager conf' = Some Mock.manager.
Proof.
  destruct (NewClient_failure_sets_manager
              {| APIVersion := 8; BotToken := "Bot secret"; HttpClient := Some Mock.transport;
                 CancelRequestWhenRateLimited := true; Config_RESTBucketManager := None;
                 UserAgentVersion := ""; UserAgentSourceURL := "https://github.com/Vedza/disgord";
                 UserAgentExtra := "" |}
              (Mock.boot []) Mock.transport eq_refl ltac:(discriminate) eq_refl eq_refl
              (or_intror eq_refl)) as [text Hrun].
  exists text. eexists. split; [exact Hrun | reflexivity].
Defined.

(** The mock configuration, with the cancel flag set. *)
Lemma NewClient_builds_client_witness :
  ∃ c conf',
    NewClient
      {| APIVersion := 8; BotToken := "Bot secret"; HttpClient := Some Mock.transport;
         CancelRequestWhenRateLimited := true; Config_RESTBucketManager := None;
         UserAgentVersion := "v0.27"; UserAgentSourceURL := "https://github.com/Vedza/disgord";
         UserAgentExtra := "" |}
      (Mock.boot [])
    = (Some c, None, conf', Mock.world [])
    ∧ url c = "https://discord.com/api/v8"
    ∧ cancelRequestWhenRateLimited c = false.
Proof.
  assert (¬ invalidConfig
              {| APIVersion := 8; BotToken := "Bot secret"; HttpClient := Some Mock.transport;
                 CancelRequestWhenRateLimited := true; Config_RESTBucketManager := None;
                 UserAgentVersion := "v0.27";
                 UserAgentSourceURL := "https://github.com/Vedza/disgord";
                 UserAgentExtra := "" |}) as Hok
    by (intros [?|[?|[?|[?|?]]]]; discriminate).
  destruct (NewClient_builds_client _ (Mock.boot []) Hok)
    as (c & conf' & Hrun & Hurl & _ & Hflag & _).
  exists c, conf'. split; [exact Hrun|]. split; [exact Hurl | exact Hflag].
Defined.

(** A structured body reaches the transport marshalled. *)
Lemma Do_sends_marshalled_body_witness :
  ∃ sent rd,
    EvTransport sent
      ∈ newEvents (Mock.world [inl (Mock.answer 200 [] [])])
          (snd (Do Mock.client Mock.Live
                   (Mock.request (Some (BodyOther (Some (bytes_of_string "{}")))) "" "")
                   (Mock.world [inl (Mock.answer 200 [] [])])))
    ∧ sent_Body sent = Some rd
    ∧ ioutil_ReadAll rd = inl (bytes_of_string "{}").
Proof.
  assert (∃ sent, EvTransport sent
            ∈ newEvents (Mock.world [inl (Mock.answer 200 [] [])])
                (snd (Do Mock.client Mock.Live
                         (Mock.request (Some (BodyOther (Some (bytes_of_string "{}")))) "" "")
                         (Mock.world [inl (Mock.answer 200 [] [])])))) as [sent Hin].
  { eexists. vm_compute. do 2 apply list_elem_of_further. apply list_elem_of_here. }
  destruct (proj1 (Do_sends_marshalled_body (H := Mock.types) (H0 := Mock.externals) Mock.client Mock.Live
                     (Mock.request (Some (BodyOther (H := Mock.types)
                                            (Some (bytes_of_string "{}")))) "" "")
                     (Mock.world [inl (Mock.answer 200 [] [])])
                     (Some (bytes_of_string "{}")) (bytes_of_string "{}")
                     eq_refl eq_refl eq_refl eq_refl) sent Hin) as (rd & Hbody & Hread).
  exists sent, rd. auto.
Defined.

(** The two maps of a request with a reason, in the world [NewClient]
    leaves: the request's own, empty, and the outgoing header. *)
Lemma Do_builds_two_maps_witness :
  ∃ req w1 req' w2,
    http_NewRequestWithContext Mock.Live "POST" "https://discord.com/api/v8/channels/1/messages"
      None (Mock.world []) = (inl req, w1)
    ∧ outgoingHeader Mock.client (PopulateMissing (Mock.request None "" "cleanup")) req w1
      = (req', w2)
    ∧ Req_Header req = 1%nat
    ∧ Req_Header req' = 2%nat
    ∧ heap w2
      = [defaultHeader Mock.config; ∅;
         <["X-Audit-Log-Reason" := ["cleanup"]]>
           (<["Content-Type" := ["application/json"]]> (defaultHeader Mock.config))].
Proof.
  assert (NewRequest_check Mock.Live
            (Method_String (Method (PopulateMissing (Mock.request None "" "cleanup"))))
            (url Mock.client +:+ Endpoint (PopulateMissing (Mock.request None "" "cleanup")))
          = None) as Hcheck by (vm_compute; reflexivity).
  destruct (Do_builds_two_maps Mock.client Mock.Live
              (PopulateMissing (Mock.request None "" "cleanup")) (Mock.world []) Hcheck)
    as (req & w1 & Hnew & Haddr & Hout).
  exists req, w1. eexists _, _. split; [exact Hnew|]. split; [exact Hout|].
  split; [exact Haddr|]. split; [reflexivity|].
  cbn [heap]. vm_compute. reflexivity.
Defined.
